(** * ToadVault inventory ledger: a shallow embedding

    The development follows [InventoryProvider] (the per-store inventory
    ledger), the [ProductProvider] catalog it sits next to, and the entity
    classes of both services.

    Modelling decisions, in the order the file needs them:

    - a MongoDB collection is the list of its documents in natural
      (insertion) order; a database maps collection names to collections,
      and a collection that was never written to reads as the empty list;
    - [findOne] returns the first document that satisfies the filter,
      [updateOne] rewrites the first document that satisfies it and
      [insertOne] appends, refusing an [_id] that is already present;
    - the [ObjectId] class belongs to the driver, not to the repository: its
      type, its constructor and its [isValid] test are parameters of the
      ledger section, and a concrete instance follows the section;
    - the numbers of the ledger section are integers ([Z]): there stock is
      a count and [$inc] adds exactly; module [Precise] restates the
      provider over any numbers and any addition, module [Doubles] gives
      the binary64 values and the rounded sum that JavaScript sends and
      the store computes;
    - [Date] values are milliseconds since the epoch ([Z]), and each
      [new Date()] reads a clock that the caller of the model passes
      explicitly, one reading per expression;
    - a method may receive [undefined], which is no JSON value: module
      [Received] takes an argument as an [option JsValue];
    - an [async] method is a sequence of storage operations, one per
      [await]; the sequential functions run them back to back, the task
      machine at the end of the ledger section lets two calls interleave. *)

From Stdlib Require Import ZArith String Ascii List Lia Permutation DecimalString.
From Stdlib Require PrimFloat.
From stdpp Require Import base option list gmap strings.

Local Open Scope Z_scope.

#[local] Set Warnings "-register-all".

(** ** Results of calls that may throw *)

Inductive Fault : Type :=
  | DuplicateKey      (* E11000: insertOne on an _id already stored *)
  | BSONError         (* new ObjectId(s) on a string it does not accept *)
  | TypeError.        (* reading a property of undefined *)

Inductive Outcome (A : Type) : Type :=
  | Return (a : A)
  | Throw (e : Fault).

Arguments Return {A} a.
Arguments Throw {A} e.

Definition bind {A B : Type} (m : Outcome A) (k : A -> Outcome B) : Outcome B :=
  match m with
  | Return a => k a
  | Throw e => Throw e
  end.

Notation "'await' x <- m ; k" := (bind m (fun x => k))
  (at level 10, x name, m at level 100, k at level 200).

Definition returns {A : Type} (m : Outcome A) : bool :=
  match m with Return _ => true | Throw _ => false end.

(** ** Entities shared by the services *)

(** [class Variant] of inventory.entitie.ts. *)
Record VariantData : Type := mkVariant {
  variant_name : string;
  variant_price : Z;
  variant_stock : Z
}.

(** The reply shape [{ success, message? }] of the mutating operations. *)
Record Reply : Type := mkReply {
  success : bool;
  message : option string
}.

(** ** The shared catalog (api-product) *)

Module Catalog.

(** [class Product] of entities/prodcut/prodcut.entity.ts, the one the
    provider imports. The identifier the driver adds on insert is left
    out: nothing in the ledger reads it. *)
Record Product : Type := mkProduct {
  barcode : string;
  name : string;
  description : string;
  category_id : string;
  created_at : Z;
  updated_at : Z;
  variants : list VariantData
}.

(** The [products] collection. *)
Definition Products := list Product.

Definition findOne (b : string) (c : Products) : option Product :=
  List.find (fun p => bool_decide (barcode p = b)) c.

(** [ProductProvider.addProduct] *)
Definition addProduct (c : Products) (productData : Product) : Products * Reply :=
  match findOne (barcode productData) c with
  | Some _ =>
      (c, mkReply false (Some "Product with this barcode already exists"))
  | None =>
      (c ++ [productData], mkReply true (Some "Product added successfully"))
  end.

(** [ProductProvider.instantiateProduct]; [created] and [updated] are what
    the clock shows at its two [new Date()] expressions. *)
Definition instantiateProduct (created updated : Z) (productData : Product)
    : Product :=
  mkProduct (barcode productData) (name productData) (description productData)
    (category_id productData) created updated [].

End Catalog.

(** ** The inventory ledger (api-inventory) *)

Section Ledger.

(** The driver's [ObjectId]: its values, the constructor from a string
    ([None] when it throws) and the static [isValid]. *)
Variable ObjectId : Type.
Context `{EqDecision ObjectId}.
Variable ObjectId_new : string -> option ObjectId.
Variable ObjectId_isValid : string -> bool.

(** [interface InventoryData]; [class Inventory] is the same record built
    without an [_id]. *)
Record InventoryData : Type := mkInventoryData {
  _id : option ObjectId;
  barcode : string;
  name : string;
  description : string;
  price : Z;
  stock : Z;
  supplier : string;
  created_at : Z;
  updated_at : Z;
  variants : list VariantData
}.

(** [new Inventory(barcode, name, ..., variants)] *)
Definition Inventory (b n d : string) (p s : Z) (sup : string)
    (created updated : Z) (vs : list VariantData) : InventoryData :=
  mkInventoryData None b n d p s sup created updated vs.

Definition Collection : Type := list InventoryData.
Definition Db : Type := gmap string Collection.

(** *** Storage primitives on one collection *)

(** The filters the provider uses: [{ barcode: b }] and [{ _id: o }]. *)
Definition by_barcode (b : string) (d : InventoryData) : bool :=
  bool_decide (barcode d = b).

Definition by_id (o : ObjectId) (d : InventoryData) : bool :=
  bool_decide (_id d = Some o).

Definition findOne (q : InventoryData -> bool) (c : Collection)
    : option InventoryData :=
  List.find q c.

(** The update document [{ $inc: { stock: delta } }]. *)
Definition inc_stock (delta : Z) (d : InventoryData) : InventoryData :=
  mkInventoryData (_id d) (barcode d) (name d) (description d) (price d)
    (stock d + delta) (supplier d) (created_at d) (updated_at d) (variants d).

Fixpoint updateOne (q : InventoryData -> bool)
    (upd : InventoryData -> InventoryData) (c : Collection) : Collection :=
  match c with
  | [] => []
  | d :: rest => if q d then upd d :: rest else d :: updateOne q upd rest
  end.

(** The driver fills in a missing [_id] with the identifier it generates
    ([oid]); the server rejects an [_id] that the collection already has. *)
Definition with_id (oid : ObjectId) (d : InventoryData) : InventoryData :=
  match _id d with
  | Some _ => d
  | None =>
      mkInventoryData (Some oid) (barcode d) (name d) (description d)
        (price d) (stock d) (supplier d) (created_at d) (updated_at d)
        (variants d)
  end.

Definition id_taken (oid : ObjectId) (d : InventoryData) (c : Collection)
    : bool :=
  existsb (fun e => bool_decide (_id e = _id (with_id oid d))) c.

Definition insertOne (oid : ObjectId) (d : InventoryData) (c : Collection)
    : Outcome Collection :=
  if id_taken oid d c then Throw DuplicateKey
  else Return (c ++ [with_id oid d]).

(** *** The same primitives on the database *)

(** [db.collection(`inventory_store_${storeId}`)] *)
Definition inventory_store (storeId : string) : string :=
  "inventory_store_" +:+ storeId.

Definition collection (db : Db) (coll : string) : Collection :=
  default [] (db !! coll).

Definition db_findOne (db : Db) (coll : string) (q : InventoryData -> bool)
    : option InventoryData :=
  findOne q (collection db coll).

Definition db_insertOne (oid : ObjectId) (db : Db) (coll : string)
    (d : InventoryData) : Outcome Db :=
  await c <- insertOne oid d (collection db coll);
  Return (<[coll := c]> db).

Definition db_updateOne (db : Db) (coll : string)
    (q : InventoryData -> bool) (upd : InventoryData -> InventoryData) : Db :=
  alter (updateOne q upd) coll db.

(** *** InventoryProvider *)

Definition added : Reply := mkReply true (Some "Item added successfully").

(** [addItem(storeId, itemData)]; [oid] is the identifier the driver
    would generate if the call inserts. *)
Definition addItem (oid : ObjectId) (db : Db) (storeId : string)
    (itemData : InventoryData) : Outcome (Db * Reply) :=
  let productsCollection := inventory_store storeId in
  let product := db_findOne db productsCollection (by_barcode (barcode itemData)) in
  match product with
  | None =>
      await db' <- db_insertOne oid db productsCollection itemData;
      Return (db', added)
  | Some _ =>
      let db' := db_updateOne db productsCollection
                   (by_barcode (barcode itemData))
                   (inc_stock (stock itemData)) in
      Return (db', added)
  end.

Record InventoryReply : Type := mkInventoryReply {
  inv_success : bool;
  inv_message : string;
  products : list InventoryData
}.

(** [getInventory(storeId)] *)
Definition getInventory (db : Db) (storeId : string) : Outcome InventoryReply :=
  let productsCollection := inventory_store storeId in
  let products := collection db productsCollection in
  Return (mkInventoryReply true "Items retrieved successfully" products).

Record ItemReply : Type := mkItemReply {
  item_success : bool;
  item_message : string;
  product : option InventoryData
}.

Definition not_found : ItemReply := mkItemReply false "Item not found" None.

Definition retrieved (p : InventoryData) : ItemReply :=
  mkItemReply true "Item retrieved successfully" (Some p).

(** [getItemByBarcodeOrID(storeId, barcode_id)] *)
Definition getItemByBarcodeOrID (db : Db) (storeId barcode_id : string)
    : Outcome ItemReply :=
  let productsCollection := inventory_store storeId in
  if negb (ObjectId_isValid barcode_id) then
    match db_findOne db productsCollection (by_barcode barcode_id) with
    | None => Return not_found
    | Some product => Return (retrieved product)
    end
  else
    match ObjectId_new barcode_id with
    | None => Throw BSONError
    | Some oid =>
        match db_findOne db productsCollection (by_id oid) with
        | None => Return not_found
        | Some product => Return (retrieved product)
        end
    end.

(** [instantiateItem(ItemData)]; [created] and [updated] are what the clock
    shows at its two [new Date()] expressions. *)
Definition instantiateItem (created updated : Z) (ItemData : InventoryData)
    : InventoryData :=
  Inventory (barcode ItemData) (name ItemData) (description ItemData)
    (price ItemData) (stock ItemData) (supplier ItemData) created updated
    (variants ItemData).

(** *** A sequence of addItem calls, one after the other

    Each call comes with the identifier the driver would generate for it. *)
Fixpoint addItems (db : Db) (storeId : string)
    (calls : list (ObjectId * InventoryData)) : Outcome Db :=
  match calls with
  | [] => Return db
  | (oid, itemData) :: rest =>
      await r <- addItem oid db storeId itemData;
      addItems (fst r) storeId rest
  end.

(** The total of the increments a list of calls asks for. *)
Fixpoint requested (calls : list (ObjectId * InventoryData)) : Z :=
  match calls with
  | [] => 0
  | call :: rest => stock (snd call) + requested rest
  end.

(** The stock a store holds for a barcode, as [findOne] sees it. *)
Definition stock_of (db : Db) (storeId b : string) : option Z :=
  stock <$> db_findOne db (inventory_store storeId) (by_barcode b).

(** How many records of a store carry a barcode. *)
Definition records_of (db : Db) (storeId b : string) : nat :=
  length (List.filter (by_barcode b) (collection db (inventory_store storeId))).

(** *** One addItem call as a task

    The method suspends at each [await]; between two suspensions it
    performs exactly one storage operation. The program counter records
    where the call stands and what its local [product] holds. *)
Inductive AddItemPc : Type :=
  | AtFindOne
  | AtWrite (product : option InventoryData)
  | Finished (r : Reply)
  | Failed (e : Fault).

Record AddItemTask : Type := mkTask {
  task_oid : ObjectId;
  task_store : string;
  task_item : InventoryData;
  task_pc : AddItemPc
}.

Definition spawn (oid : ObjectId) (storeId : string) (itemData : InventoryData)
    : AddItemTask :=
  mkTask oid storeId itemData AtFindOne.

Definition goto (t : AddItemTask) (pc : AddItemPc) : AddItemTask :=
  mkTask (task_oid t) (task_store t) (task_item t) pc.

Definition step_task (db : Db) (t : AddItemTask) : Db * AddItemTask :=
  let productsCollection := inventory_store (task_store t) in
  let itemData := task_item t in
  match task_pc t with
  | AtFindOne =>
      (db, goto t (AtWrite (db_findOne db productsCollection
                              (by_barcode (barcode itemData)))))
  | AtWrite None =>
      match db_insertOne (task_oid t) db productsCollection itemData with
      | Return db' => (db', goto t (Finished added))
      | Throw e => (db, goto t (Failed e))
      end
  | AtWrite (Some _) =>
      (db_updateOne db productsCollection (by_barcode (barcode itemData))
         (inc_stock (stock itemData)),
       goto t (Finished added))
  | Finished _ | Failed _ => (db, t)
  end.

(** The event loop picks a task and lets it run to its next [await]. *)
Definition step (st : Db * list AddItemTask) (i : nat) : Db * list AddItemTask :=
  match snd st !! i with
  | None => st
  | Some t =>
      let r := step_task (fst st) t in
      (fst r, <[i := snd r]> (snd st))
  end.

Definition run (schedule : list nat) (st : Db * list AddItemTask)
    : Db * list AddItemTask :=
  fold_left step schedule st.

Definition finished (t : AddItemTask) : bool :=
  match task_pc t with Finished _ => true | _ => false end.

Definition inserting (t : AddItemTask) : bool :=
  match task_pc t with AtWrite None => true | _ => false end.

(** The increments that the finished tasks have asked for. *)
Fixpoint applied (ts : list AddItemTask) : Z :=
  match ts with
  | [] => 0
  | t :: rest =>
      (if finished t then stock (task_item t) else 0) + applied rest
  end.

End Ledger.

Arguments mkInventoryData {ObjectId}.
Arguments _id {ObjectId}.
Arguments barcode {ObjectId}.
Arguments name {ObjectId}.
Arguments description {ObjectId}.
Arguments price {ObjectId}.
Arguments stock {ObjectId}.
Arguments supplier {ObjectId}.
Arguments created_at {ObjectId}.
Arguments updated_at {ObjectId}.
Arguments variants {ObjectId}.
Arguments Inventory {ObjectId}.
Arguments by_barcode {ObjectId}.
Arguments findOne {ObjectId}.
Arguments inc_stock {ObjectId}.
Arguments updateOne {ObjectId}.
Arguments collection {ObjectId}.
Arguments db_findOne {ObjectId}.
Arguments db_updateOne {ObjectId}.
Arguments mkInventoryReply {ObjectId}.
Arguments inv_success {ObjectId}.
Arguments inv_message {ObjectId}.
Arguments products {ObjectId}.
Arguments getInventory {ObjectId}.
Arguments mkItemReply {ObjectId}.
Arguments item_success {ObjectId}.
Arguments item_message {ObjectId}.
Arguments product {ObjectId}.
Arguments not_found {ObjectId}.
Arguments retrieved {ObjectId}.
Arguments instantiateItem {ObjectId}.
Arguments stock_of {ObjectId}.
Arguments records_of {ObjectId}.
Arguments AtFindOne {ObjectId}.
Arguments AtWrite {ObjectId}.
Arguments Finished {ObjectId}.
Arguments Failed {ObjectId}.
Arguments mkTask {ObjectId}.
Arguments task_oid {ObjectId}.
Arguments task_store {ObjectId}.
Arguments task_item {ObjectId}.
Arguments task_pc {ObjectId}.
Arguments spawn {ObjectId}.
Arguments goto {ObjectId}.
Arguments finished {ObjectId}.
Arguments inserting {ObjectId}.
Arguments applied {ObjectId}.
Arguments by_id {ObjectId EqDecision0}.
Arguments with_id {ObjectId}.
Arguments requested {ObjectId}.
Arguments id_taken {ObjectId EqDecision0}.
Arguments insertOne {ObjectId EqDecision0}.
Arguments db_insertOne {ObjectId EqDecision0}.
Arguments addItem {ObjectId EqDecision0}.
Arguments getItemByBarcodeOrID {ObjectId EqDecision0}.
Arguments addItems {ObjectId EqDecision0}.
Arguments step_task {ObjectId EqDecision0}.
Arguments step {ObjectId EqDecision0}.
Arguments run {ObjectId EqDecision0}.

(** ** The validation gate: payloads and Joi schemas

    A payload is the JSON value the transport delivers. The fields of an
    object are listed in the order [Object.keys] enumerates them; a key that
    is absent reads as [undefined], which is [None] below. *)

Inductive JsValue : Type :=
  | JNull
  | JBool (b : bool)
  | JNum (n : Z)
  | JStr (s : string)
  | JArr (items : list JsValue)
  | JObj (fields : list (string * JsValue)).

Fixpoint get (key : string) (fields : list (string * JsValue)) : option JsValue :=
  match fields with
  | [] => None
  | (k, v) :: rest => if bool_decide (k = key) then Some v else get key rest
  end.

(** The values [.allow(...)] can list. *)
Inductive Primitive : Type :=
  | PNull
  | PBool (b : bool)
  | PNum (n : Z)
  | PStr (s : string).

Definition same_value (p : Primitive) (v : JsValue) : bool :=
  match p, v with
  | PNull, JNull => true
  | PBool a, JBool b => bool_decide (a = b)
  | PNum a, JNum b => bool_decide (a = b)
  | PStr a, JStr b => bool_decide (a = b)
  | _, _ => false
  end.

(** *** Error reports *)

Inductive Segment : Type :=
  | Key (k : string)
  | Index (i : nat).

Definition Path : Type := list Segment.

Definition dq : string := String (ascii_of_nat 34) EmptyString.

Definition quoted (s : string) : string := dq +:+ s +:+ dq.

Definition string_of_nat (n : nat) : string :=
  NilZero.string_of_uint (Nat.to_uint n).

(** Keys are joined by a dot, array positions are put in brackets. *)
Fixpoint path_label (label : string) (p : Path) : string :=
  match p with
  | [] => label
  | Key k :: rest =>
      path_label
        ((if bool_decide (label = "") then "" else label +:+ ".") +:+ k) rest
  | Index i :: rest =>
      path_label (label +:+ "[" +:+ string_of_nat i +:+ "]") rest
  end.

Definition label_of (p : Path) : string :=
  let normalized := path_label "" p in
  if bool_decide (normalized = "") then "value" else normalized.

Inductive Code : Type :=
  | any_required
  | string_base
  | string_empty
  | string_pattern_base (value regex : string)
  | number_base
  | number_unsafe
  | number_infinity
  | array_base
  | array_min (limit : nat)
  | object_base
  | object_unknown.

Definition code_name (c : Code) : string :=
  match c with
  | any_required => "any.required"
  | string_base => "string.base"
  | string_empty => "string.empty"
  | string_pattern_base _ _ => "string.pattern.base"
  | number_base => "number.base"
  | number_unsafe => "number.unsafe"
  | number_infinity => "number.infinity"
  | array_base => "array.base"
  | array_min _ => "array.min"
  | object_base => "object.base"
  | object_unknown => "object.unknown"
  end.

(** Joi's own wording of each report. *)
Definition default_message (c : Code) (label : string) : string :=
  match c with
  | any_required => quoted label +:+ " is required"
  | string_base => quoted label +:+ " must be a string"
  | string_empty => quoted label +:+ " is not allowed to be empty"
  | string_pattern_base value regex =>
      quoted label +:+ " with value " +:+ quoted value
        +:+ " fails to match the required pattern: " +:+ regex
  | number_base => quoted label +:+ " must be a number"
  | number_unsafe => quoted label +:+ " must be a safe number"
  | number_infinity => quoted label +:+ " cannot be infinity"
  | array_base => quoted label +:+ " must be an array"
  | array_min limit =>
      quoted label +:+ " must contain at least " +:+ string_of_nat limit
        +:+ " items"
  | object_base => quoted label +:+ " must be of type object"
  | object_unknown => quoted label +:+ " is not allowed"
  end.

Record Detail : Type := mkDetail {
  detail_message : string;
  detail_path : Path;
  detail_type : string
}.

(** The overrides given to [.messages({...})], by report type. The
    repository's overrides are plain text without template variables. *)
Definition Messages : Type := list (string * string).

Fixpoint override (name : string) (ms : Messages) : option string :=
  match ms with
  | [] => None
  | (k, text) :: rest =>
      if bool_decide (k = name) then Some text else override name rest
  end.

Definition report (ms : Messages) (p : Path) (c : Code) : Detail :=
  mkDetail (default (default_message c (label_of p)) (override (code_name c) ms))
    p (code_name c).

(** *** Schemas

    A schema carries its presence flag, its allowed values, its message
    overrides, the check of its base type and its rules in the order they
    were added. Validation stops at the first report (abortEarly). *)

Inductive Presence : Type := Optional | Required.

Definition Check : Type := Messages -> Path -> JsValue -> list Detail.

Record Schema : Type := mkSchema {
  presence : Presence;
  valids : list Primitive;
  messages : Messages;
  base : Check;
  rules : list Check
}.

Fixpoint run_rules (rs : list Check) (ms : Messages) (p : Path) (v : JsValue)
    : list Detail :=
  match rs with
  | [] => []
  | r :: rest =>
      match r ms p v with
      | [] => run_rules rest ms p v
      | errors => errors
      end
  end.

Definition validate_at (s : Schema) (p : Path) (v : option JsValue) : list Detail :=
  match v with
  | None =>
      match presence s with
      | Required => [report (messages s) p any_required]
      | Optional => []
      end
  | Some x =>
      if existsb (fun a => same_value a x) (valids s) then []
      else
        match base s (messages s) p x with
        | [] => run_rules (rules s) (messages s) p x
        | errors => errors
        end
  end.

(** The chained modifiers. *)
Definition required (s : Schema) : Schema :=
  mkSchema Required (valids s) (messages s) (base s) (rules s).

Definition allow (a : Primitive) (s : Schema) : Schema :=
  mkSchema (presence s) (valids s ++ [a]) (messages s) (base s) (rules s).

Definition with_messages (ms : Messages) (s : Schema) : Schema :=
  mkSchema (presence s) (valids s) (ms ++ messages s) (base s) (rules s).

Definition add_rule (r : Check) (s : Schema) : Schema :=
  mkSchema (presence s) (valids s) (messages s) (base s) (rules s ++ [r]).

Notation "s '.>' f" := (f s) (at level 45, left associativity, only parsing).

(** What [Joi.number()] makes of a string under the default [convert]
    preference: the string is not numeric, it converts to a safe number, or
    it converts to a number that does not survive the round trip. *)
Inductive Coercion : Type :=
  | NotNumeric
  | SafeNumber
  | UnsafeNumber.

(** A regular expression: its source text and the strings it matches. *)
Record RegExp : Type := mkRegExp {
  source : string;
  test : string -> bool
}.

Definition is_digit (c : ascii) : bool :=
  (48 <=? nat_of_ascii c)%nat && (nat_of_ascii c <=? 57)%nat.

Fixpoint all_digits (s : string) : bool :=
  match s with
  | EmptyString => true
  | String c rest => is_digit c && all_digits rest
  end.

(** [/^\d+$/]: one or more decimal digits and nothing else. *)
Definition digits : RegExp :=
  mkRegExp "/^\d+$/"
    (fun s => negb (bool_decide (s = "")) && all_digits s).

Definition MAX_SAFE_INTEGER : Z := 2 ^ 53 - 1.

(** The integers from this one on read as [Infinity]. *)
Definition overflow : Z := 2 ^ 1024 - 2 ^ 970.

Section Validation.

(** The decimal-to-double conversion behind [convert] is the library's;
    the gate is stated for every such conversion. *)
Variable number_coerce : string -> Coercion.

(** [Joi.string()] *)
Definition string_check : Check := fun ms p v =>
  match v with
  | JStr s => if bool_decide (s = "") then [report ms p string_empty] else []
  | _ => [report ms p string_base]
  end.

Definition Joi_string : Schema := mkSchema Optional [] [] string_check [].

(** [.pattern(re)] *)
Definition pattern (re : RegExp) : Schema -> Schema :=
  add_rule (fun ms p v =>
    match v with
    | JStr s =>
        if test re s then []
        else [report ms p (string_pattern_base s (source re))]
    | _ => []
    end).

(** [Joi.number()] *)
Definition number_check : Check := fun ms p v =>
  match v with
  | JNum n =>
      if overflow <=? Z.abs n then [report ms p number_infinity]
      else if MAX_SAFE_INTEGER <? Z.abs n then [report ms p number_unsafe]
      else []
  | JStr s =>
      match number_coerce s with
      | NotNumeric => [report ms p number_base]
      | SafeNumber => []
      | UnsafeNumber => [report ms p number_unsafe]
      end
  | _ => [report ms p number_base]
  end.

Definition Joi_number : Schema := mkSchema Optional [] [] number_check [].

(** [Joi.array()], [.items(schema)] and [.min(limit)] *)
Definition array_check : Check := fun ms p v =>
  match v with
  | JArr _ => []
  | _ => [report ms p array_base]
  end.

Definition Joi_array : Schema := mkSchema Optional [] [] array_check [].

Fixpoint validate_items (item : Schema) (p : Path) (i : nat)
    (vs : list JsValue) : list Detail :=
  match vs with
  | [] => []
  | v :: rest =>
      match validate_at item (p ++ [Index i]) (Some v) with
      | [] => validate_items item p (S i) rest
      | errors => errors
      end
  end.

Definition items (item : Schema) : Schema -> Schema :=
  add_rule (fun _ p v =>
    match v with
    | JArr vs => validate_items item p 0 vs
    | _ => []
    end).

Definition min_length (limit : nat) : Schema -> Schema :=
  add_rule (fun ms p v =>
    match v with
    | JArr vs =>
        if (limit <=? length vs)%nat then []
        else [report ms p (array_min limit)]
    | _ => []
    end).

(** [Joi.object({ key: schema, ... })]: the declared keys in the order
    they are written, then the keys the schema does not declare. *)
Fixpoint validate_keys (keys : list (string * Schema)) (p : Path)
    (fields : list (string * JsValue)) : list Detail :=
  match keys with
  | [] => []
  | (k, child) :: rest =>
      match validate_at child (p ++ [Key k]) (get k fields) with
      | [] => validate_keys rest p fields
      | errors => errors
      end
  end.

Definition declared (keys : list (string * Schema)) (k : string) : bool :=
  existsb (fun kc => bool_decide (fst kc = k)) keys.

Definition unprocessed (keys : list (string * Schema))
    (fields : list (string * JsValue)) : list string :=
  List.filter (fun k => negb (declared keys k)) (map fst fields).

Definition object_check (keys : list (string * Schema)) : Check := fun ms p v =>
  match v with
  | JObj fields =>
      match validate_keys keys p fields with
      | [] =>
          match unprocessed keys fields with
          | [] => []
          | k :: _ => [report ms (p ++ [Key k]) object_unknown]
          end
      | errors => errors
      end
  | _ => [report ms p object_base]
  end.

Definition Joi_object (keys : list (string * Schema)) : Schema :=
  mkSchema Optional [] [] (object_check keys) [].

(** [schema.validate(value)]: the [error] of the result. *)
Record ValidationError : Type := mkValidationError {
  details : list Detail
}.

Definition Joi_validate (s : Schema) (value : JsValue) : option ValidationError :=
  match validate_at s [] (Some value) with
  | [] => None
  | errors => Some (mkValidationError errors)
  end.

(** *** InventoryProvider: the two schemas *)

Definition store_schema : Schema :=
  Joi_object [
    ("store_id",
      Joi_string .> pattern digits
        .> with_messages
             [("string.pattern.base", "'store_id' must be a string of numbers")]
        .> required)
  ].

Definition item_schema : Schema :=
  Joi_object [
    ("barcode",
      Joi_string .> pattern digits
        .> with_messages
             [("string.pattern.base", "'barcode' must be a string of numbers")]
        .> required);
    ("name", Joi_string .> required);
    ("description", Joi_string .> allow (PStr ""));
    ("price", Joi_number .> required);
    ("stock", Joi_number .> required);
    ("supplier", Joi_string .> allow (PStr ""));
    ("variants",
      Joi_array
        .> items (Joi_object [("name", Joi_string .> required)])
        .> min_length 0)
  ].

(** [const { error } = schema.validate(x); if (error) return { success:
    false, message: error.details[0].message }; return { success: true }] *)
Definition reply_of (error : option ValidationError) : Outcome Reply :=
  match error with
  | Some e =>
      match details e with
      | d :: _ => Return (mkReply false (Some (detail_message d)))
      | [] => Throw TypeError
      end
  | None => Return (mkReply true None)
  end.

(** [validateStore(storeInfo)] *)
Definition validateStore (storeInfo : JsValue) : Outcome Reply :=
  let schema := store_schema in
  reply_of (Joi_validate schema storeInfo).

(** [validateItemData(itemData)] *)
Definition validateItemData (itemData : JsValue) : Outcome Reply :=
  let schema := item_schema in
  reply_of (Joi_validate schema itemData).

End Validation.

(** ** Barcodes in the order a store first sees them *)

Definition note (seen : list string) (b : string) : list string :=
  if bool_decide (b ∈ seen) then seen else seen ++ [b].

Definition first_seen (bs : list string) : list string :=
  fold_left note bs [].

(** ** Hexadecimal strings *)

Definition hex_value (c : ascii) : option nat :=
  let n := nat_of_ascii c in
  if (48 <=? n)%nat && (n <=? 57)%nat then Some (n - 48)%nat
  else if (97 <=? n)%nat && (n <=? 102)%nat then Some (n - 87)%nat
  else if (65 <=? n)%nat && (n <=? 70)%nat then Some (n - 55)%nat
  else None.

Fixpoint all_hex (s : string) : bool :=
  match s with
  | EmptyString => true
  | String c rest => bool_decide (is_Some (hex_value c)) && all_hex rest
  end.

(** ** A concrete driver *)

Module Bson.

(** An instance of the driver's [ObjectId], as released from bson 6 on. An
    identifier is its twelve bytes. The constructor accepts a string of 24
    hexadecimal characters, whose bytes it decodes, and throws on every
    other string; [isValid] tells whether the constructor returns. *)
Definition ObjectId : Type := string.

Fixpoint fromHex (s : string) : string :=
  match s with
  | String a (String b rest) =>
      String
        (ascii_of_nat (16 * default 0%nat (hex_value a)
                       + default 0%nat (hex_value b)))
        (fromHex rest)
  | _ => EmptyString
  end.

Definition ObjectId_new (s : string) : option ObjectId :=
  if (String.length s =? 24)%nat && all_hex s then Some (fromHex s)
  else None.

Definition ObjectId_isValid (s : string) : bool :=
  match ObjectId_new s with
  | Some _ => true
  | None => false
  end.

End Bson.

(** ** The scenario of store 7 *)

Module Scenario.

Definition store : string := "7".

Definition oid1 : Bson.ObjectId := "aaaaaaaaaaaa".
Definition oid2 : Bson.ObjectId := "bbbbbbbbbbbb".

(** What the ingress hands to the ledger for a can of cola when both
    readings of the clock show [now]. *)
Definition cola (now units : Z) : InventoryData Bson.ObjectId :=
  instantiateItem now now (Inventory "1001" "Cola" "" 150 units "" 0 0 []).

Definition untouched : Db Bson.ObjectId := ∅.

(** The store after ten cans were added at time 1000. *)
Definition stocked : Db Bson.ObjectId :=
  {[ inventory_store store := [with_id oid1 (cola 1000 10)] ]}.

(** The catalog after the product service registered the barcode. *)
Definition catalog : Catalog.Products :=
  fst (Catalog.addProduct []
         (Catalog.instantiateProduct 500 500
            (Catalog.mkProduct "1001" "Cola" "Soda, 33 cl" "drinks" 0 0 []))).

(** A payload for the same barcode that names the product differently. *)
Definition kola : InventoryData Bson.ObjectId :=
  instantiateItem 1000 1000 (Inventory "1001" "Kola" "" 150 10 "" 0 0 []).

(** A store whose only item carries a twelve-digit barcode. *)
Definition ean : string := "123456789012".

(** Payloads at the gate. *)
Definition payload : list (string * JsValue) :=
  [("barcode", JStr "1234"); ("name", JStr "Cola");
   ("price", JNum 150); ("stock", JNum 10)].

Definition can : JsValue :=
  JObj [("name", JStr "Can"); ("price", JNum 150); ("stock", JNum 6)].

(** A conversion that treats no string as a number. *)
Definition strict : string -> Coercion := fun _ => NotNumeric.

End Scenario.

(** ** What seeding a record from the catalog would mean *)

Definition seeded_from_catalog {ObjectId : Type} (catalog : Catalog.Products)
    (db : Db ObjectId) (storeId b : string) : Prop :=
  exists p d,
    Catalog.findOne b catalog = Some p /\
    db_findOne db (inventory_store storeId) (by_barcode b) = Some d /\
    name d = Catalog.name p /\
    description d = Catalog.description p.

(** The calls behind a list of tasks. *)
Definition calls_of {ObjectId : Type} (ts : list (AddItemTask ObjectId))
    : list (ObjectId * InventoryData ObjectId) :=
  map (fun t => (task_oid t, task_item t)) ts.

(** One task per call, all for the same store. *)
Definition tasks_of {ObjectId : Type} (storeId : string)
    (calls : list (ObjectId * InventoryData ObjectId))
    : list (AddItemTask ObjectId) :=
  map (fun call => spawn (fst call) storeId (snd call)) calls.

(** A task that called addItem for barcode [b] of store [storeId] and has
    not taken the insert branch. *)
Definition incrementing {ObjectId : Type} (storeId b : string)
    (t : AddItemTask ObjectId) : Prop :=
  task_store t = storeId /\
  barcode (task_item t) = b /\
  (task_pc t = AtFindOne \/
   (exists d, task_pc t = AtWrite (Some d)) \/
   task_pc t = Finished added).

(** A task that has just been spawned for that barcode and store. *)
Definition starting {ObjectId : Type} (storeId b : string)
    (t : AddItemTask ObjectId) : Prop :=
  task_store t = storeId /\ barcode (task_item t) = b /\ task_pc t = AtFindOne.

(** What a task has added to the stock so far. *)
Definition weight {ObjectId : Type} (t : AddItemTask ObjectId) : Z :=
  if finished t then stock (task_item t) else 0.

(** What every interleaving preserves once the store holds the barcode:
    the stock is the base stock plus what the finished tasks added, the
    record count stays, no task stands at the insert, and the calls are the
    ones that were made. *)
Definition settled {ObjectId : Type} (storeId b : string) (s : Z) (n : nat)
    (calls : list (ObjectId * InventoryData ObjectId))
    (st : Db ObjectId * list (AddItemTask ObjectId)) : Prop :=
  stock_of (fst st) storeId b = Some (s + applied (snd st)) /\
  records_of (fst st) storeId b = n /\
  Forall (incrementing storeId b) (snd st) /\
  calls_of (snd st) = calls.

(** ** The catalog's gate and controller (api-product) *)

(** The schema of [ProductProvider.validateProductData]. *)
Definition product_schema : Schema :=
  Joi_object [
    ("barcode",
      Joi_string .> pattern digits
        .> with_messages
             [("string.pattern.base", "'barcode' must be a string of numbers")]
        .> required);
    ("name", Joi_string .> required);
    ("description", Joi_string .> required);
    ("category_id", Joi_string .> required)
  ].

(** The property [key] of a payload, for the four properties that
    [instantiateProduct] reads. The controller reads them after validation
    only, when each of them is a string. *)
Definition text (key : string) (productData : JsValue) : string :=
  match productData with
  | JObj fields =>
      match get key fields with
      | Some (JStr s) => s
      | _ => ""
      end
  | _ => ""
  end.

Record ProductsReply : Type := mkProductsReply {
  prod_success : bool;
  prod_message : string;
  prod_products : Catalog.Products
}.

(** [ProductProvider.getProdcuts()] *)
Definition getProdcuts (c : Catalog.Products) : ProductsReply :=
  let products := c in
  mkProductsReply true "Products retrieved successfully" products.

(** [addProduct] for each product of a list, in order. *)
Definition addProducts (c : Catalog.Products) (ps : list Catalog.Product)
    : Catalog.Products :=
  fold_left (fun acc p => fst (Catalog.addProduct acc p)) ps c.

(** ** What the gates accept, in plain terms *)

Definition only_keys (allowed : list string) (fields : list (string * JsValue))
    : Prop :=
  Forall (fun kv => fst kv ∈ allowed) fields.

Definition digit_text (v : option JsValue) : Prop :=
  exists s, v = Some (JStr s) /\ test digits s = true.

Definition filled_text (v : option JsValue) : Prop :=
  exists s, v = Some (JStr s) /\ s <> "".

Definition accepted_store (storeInfo : JsValue) : Prop :=
  exists fields,
    storeInfo = JObj fields /\
    digit_text (get "store_id" fields) /\
    only_keys ["store_id"] fields.

Definition accepted_product (productData : JsValue) : Prop :=
  exists fields,
    productData = JObj fields /\
    digit_text (get "barcode" fields) /\
    filled_text (get "name" fields) /\
    filled_text (get "description" fields) /\
    filled_text (get "category_id" fields) /\
    only_keys ["barcode"; "name"; "description"; "category_id"] fields.

(** ** More of store 7, and the catalog's desk *)

Module Samples.

Definition tea : InventoryData Bson.ObjectId :=
  Inventory Scenario.ean "Tea" "" 300 4 "" 0 0 [].

(** Two calls for the same new barcode, made at almost the same time. *)
Definition racing : list (AddItemTask Bson.ObjectId) :=
  [spawn Scenario.oid1 Scenario.store (Scenario.cola 1000 10);
   spawn Scenario.oid2 Scenario.store (Scenario.cola 1001 5)].

Definition full_item : JsValue :=
  JObj (Scenario.payload
          ++ [("description", JStr "");
              ("variants", JArr [JObj [("name", JStr "Can")]])]).

Definition cola_product : JsValue :=
  JObj [("barcode", JStr "1001"); ("name", JStr "Cola");
        ("description", JStr "Soda, 33 cl"); ("category_id", JStr "drinks")].

Definition tea_product : JsValue :=
  JObj [("barcode", JStr "2002"); ("name", JStr "Tea");
        ("description", JStr "Green, 20 bags"); ("category_id", JStr "drinks")].

Definition nameless_product : JsValue :=
  JObj [("barcode", JStr "3003"); ("description", JStr "?");
        ("category_id", JStr "drinks")].

End Samples.

(** ** Measures on a partition *)

(** Everything a record holds except its stock. *)
Definition frozen {ObjectId : Type} (d : InventoryData ObjectId) :=
  (_id d, barcode d, name d, description d, price d, supplier d,
   created_at d, updated_at d, variants d).

(** ** The provider once more, with numbers and clock as JavaScript has them

    A price or a stock is a JavaScript number, and [$inc] adds two of them
    with the addition of the store, which rounds. [instantiateItem] reads
    the clock twice. The module below restates the provider without fixing
    what a number is: [number] and the addition [plus] are parameters, and
    the two clock readings are two arguments. [Doubles] instantiates the
    numbers with binary64 values and their rounded sum. *)

Module Precise.

Section Provider.

Context {number : Type} (plus : number -> number -> number).
Context {ObjectId : Type} `{EqDecision ObjectId}.
Context (ObjectId_new : string -> option ObjectId).
Context (ObjectId_isValid : string -> bool).

(** [class Variant] *)
Record Variant : Type := mkVariant {
  variant_name : string;
  variant_price : number;
  variant_stock : number
}.

(** [interface InventoryData] *)
Record InventoryData : Type := mkInventoryData {
  _id : option ObjectId;
  barcode : string;
  name : string;
  description : string;
  price : number;
  stock : number;
  supplier : string;
  created_at : Z;
  updated_at : Z;
  variants : list Variant
}.

(** [new Inventory(barcode, name, ..., variants)] *)
Definition Inventory (b n d : string) (p s : number) (sup : string)
    (created updated : Z) (vs : list Variant) : InventoryData :=
  mkInventoryData None b n d p s sup created updated vs.

Definition Collection : Type := list InventoryData.
Definition Db : Type := gmap string Collection.

Definition by_barcode (b : string) (d : InventoryData) : bool :=
  bool_decide (barcode d = b).

Definition by_id (o : ObjectId) (d : InventoryData) : bool :=
  bool_decide (_id d = Some o).

Definition findOne (q : InventoryData -> bool) (c : Collection)
    : option InventoryData :=
  List.find q c.

(** The update document [{ $inc: { stock: delta } }]: the stored number
    and [delta] are added by the store. *)
Definition inc_stock (delta : number) (d : InventoryData) : InventoryData :=
  mkInventoryData (_id d) (barcode d) (name d) (description d) (price d)
    (plus (stock d) delta) (supplier d) (created_at d) (updated_at d)
    (variants d).

Fixpoint updateOne (q : InventoryData -> bool)
    (upd : InventoryData -> InventoryData) (c : Collection) : Collection :=
  match c with
  | [] => []
  | d :: rest => if q d then upd d :: rest else d :: updateOne q upd rest
  end.

Definition with_id (oid : ObjectId) (d : InventoryData) : InventoryData :=
  match _id d with
  | Some _ => d
  | None =>
      mkInventoryData (Some oid) (barcode d) (name d) (description d)
        (price d) (stock d) (supplier d) (created_at d) (updated_at d)
        (variants d)
  end.

Definition id_taken (oid : ObjectId) (d : InventoryData) (c : Collection)
    : bool :=
  existsb (fun e => bool_decide (_id e = _id (with_id oid d))) c.

Definition insertOne (oid : ObjectId) (d : InventoryData) (c : Collection)
    : Outcome Collection :=
  if id_taken oid d c then Throw DuplicateKey
  else Return (c ++ [with_id oid d]).

(** [db.collection(`inventory_store_${storeId}`)] *)
Definition inventory_store (storeId : string) : string :=
  "inventory_store_" +:+ storeId.

Definition collection (db : Db) (coll : string) : Collection :=
  default [] (db !! coll).

Definition db_findOne (db : Db) (coll : string) (q : InventoryData -> bool)
    : option InventoryData :=
  findOne q (collection db coll).

Definition db_insertOne (oid : ObjectId) (db : Db) (coll : string)
    (d : InventoryData) : Outcome Db :=
  await c <- insertOne oid d (collection db coll);
  Return (<[coll := c]> db).

Definition db_updateOne (db : Db) (coll : string)
    (q : InventoryData -> bool) (upd : InventoryData -> InventoryData) : Db :=
  alter (updateOne q upd) coll db.

(** *** InventoryProvider *)

Definition added : Reply := mkReply true (Some "Item added successfully").

(** [addItem(storeId, itemData)]; [oid] is the identifier the driver
    would generate if the call inserts. *)
Definition addItem (oid : ObjectId) (db : Db) (storeId : string)
    (itemData : InventoryData) : Outcome (Db * Reply) :=
  let productsCollection := inventory_store storeId in
  let product := db_findOne db productsCollection (by_barcode (barcode itemData)) in
  match product with
  | None =>
      await db' <- db_insertOne oid db productsCollection itemData;
      Return (db', added)
  | Some _ =>
      let db' := db_updateOne db productsCollection
                   (by_barcode (barcode itemData))
                   (inc_stock (stock itemData)) in
      Return (db', added)
  end.

Record InventoryReply : Type := mkInventoryReply {
  inv_success : bool;
  inv_message : string;
  products : list InventoryData
}.

(** [getInventory(storeId)] *)
Definition getInventory (db : Db) (storeId : string) : Outcome InventoryReply :=
  let productsCollection := inventory_store storeId in
  let products := collection db productsCollection in
  Return (mkInventoryReply true "Items retrieved successfully" products).

Record ItemReply : Type := mkItemReply {
  item_success : bool;
  item_message : string;
  product : option InventoryData
}.

(** [getItemByBarcodeOrID(storeId, barcode_id)] *)
Definition getItemByBarcodeOrID (db : Db) (storeId barcode_id : string)
    : Outcome ItemReply :=
  let productsCollection := inventory_store storeId in
  if negb (ObjectId_isValid barcode_id) then
    match db_findOne db productsCollection (by_barcode barcode_id) with
    | None => Return (mkItemReply false "Item not found" None)
    | Some product =>
        Return (mkItemReply true "Item retrieved successfully" (Some product))
    end
  else
    match ObjectId_new barcode_id with
    | None => Throw BSONError
    | Some oid =>
        match db_findOne db productsCollection (by_id oid) with
        | None => Return (mkItemReply false "Item not found" None)
        | Some product =>
            Return (mkItemReply true "Item retrieved successfully" (Some product))
        end
    end.

(** [instantiateItem(ItemData)]: [created_at] and [updated_at] are two
    [new Date()] expressions, evaluated one after the other; [created] and
    [updated] are what the clock shows at each. *)
Definition instantiateItem (created updated : Z) (ItemData : InventoryData)
    : InventoryData :=
  Inventory (barcode ItemData) (name ItemData) (description ItemData)
    (price ItemData) (stock ItemData) (supplier ItemData) created updated
    (variants ItemData).

(** *** Calls made one after the other *)

(** To one store; each call comes with the identifier the driver would
    generate for it. *)
Fixpoint addItems (db : Db) (storeId : string)
    (calls : list (ObjectId * InventoryData)) : Outcome Db :=
  match calls with
  | [] => Return db
  | (oid, itemData) :: rest =>
      await r <- addItem oid db storeId itemData;
      addItems (fst r) storeId rest
  end.

(** To several stores. *)
Record Call : Type := mkCall {
  call_store : string;
  call_oid : ObjectId;
  call_item : InventoryData
}.

Fixpoint serve (db : Db) (calls : list Call) : Outcome Db :=
  match calls with
  | [] => Return db
  | c :: rest =>
      await r <- addItem (call_oid c) db (call_store c) (call_item c);
      serve (fst r) rest
  end.

(** The payloads a list of calls sends to one store, in call order. *)
Definition sent_to (storeId : string) (calls : list Call) : list InventoryData :=
  call_item <$> List.filter (fun c => bool_decide (call_store c = storeId)) calls.

(** What [$inc] leaves after the increments [deltas], applied in list
    order to a stored number. *)
Definition incremented (s : number) (deltas : list number) : number :=
  fold_left plus deltas s.

End Provider.

Arguments Variant : clear implicits.
Arguments InventoryData : clear implicits.
Arguments Collection : clear implicits.
Arguments Db : clear implicits.
Arguments InventoryReply : clear implicits.
Arguments ItemReply : clear implicits.
Arguments Call : clear implicits.

End Precise.

(** ** Numbers as binary64 values *)

Module Doubles.

Import PrimFloat.

(** A JavaScript number and the sum [$inc] stores for two of them: the
    IEEE 754 binary64 sum, rounded to nearest, ties to even. *)
Definition number : Type := PrimFloat.float.

Definition plus (a b : number) : number := PrimFloat.add a b.

(** [Number.MAX_SAFE_INTEGER], the largest stock the gate lets through. *)
Definition max_safe : number := 9007199254740991%float.

End Doubles.

(** ** Stores 7 and 8, with doubles *)

Module Shelf.

Import PrimFloat Precise.

Definition Item : Type := InventoryData Doubles.number Bson.ObjectId.
Definition Stores : Type := Db Doubles.number Bson.ObjectId.

Definition id1 : string := "aaaaaaaaaaaaaaaaaaaaaaaa".
Definition id2 : string := "bbbbbbbbbbbbbbbbbbbbbbbb".
Definition id3 : string := "cccccccccccccccccccccccc".

Definition oid1 : Bson.ObjectId := Bson.fromHex id1.
Definition oid2 : Bson.ObjectId := Bson.fromHex id2.
Definition oid3 : Bson.ObjectId := Bson.fromHex id3.

(** A twelve-digit barcode and one of twenty-four digits. *)
Definition ean : string := "123456789012".
Definition long : string := "123456789012345678901234".

Definition cola (units : Doubles.number) : Item :=
  Inventory "1001" "Cola" "" 150%float units "" 0 0 [].

Definition tea (b : string) : Item :=
  Inventory b "Tea" "" 2.5%float 4%float "" 0 0
    [mkVariant "Green" 2.5%float 4%float].

Definition empty : Stores := ∅.

(** Store 7 holds as many cans as a safe integer can count. *)
Definition brimful : Stores :=
  {[ inventory_store "7" := [with_id oid1 (cola Doubles.max_safe)] ]}.

(** Store 7 holds tea under a barcode [b]. *)
Definition teashop (b : string) : Stores :=
  {[ inventory_store "7" := [with_id oid1 (tea b)] ]}.

(** Deliveries of one can, one can, and a return of two. *)
Definition deliveries : list (Bson.ObjectId * Item) :=
  [(oid2, cola 1%float); (oid2, cola 1%float); (oid2, cola (-2)%float)].

Definition returns_first : list (Bson.ObjectId * Item) :=
  [(oid2, cola (-2)%float); (oid2, cola 1%float); (oid2, cola 1%float)].

(** The same can of cola where stock is counted in integers. *)
Definition crate (units : Z) : InventoryData Z Bson.ObjectId :=
  Inventory "1001" "Cola" "" 150 units "" 0 0 [].

Definition counted : Db Z Bson.ObjectId :=
  {[ inventory_store "7" := [with_id oid1 (crate 10)] ]}.

(** A morning of calls to two stores. *)
Definition morning : list (Call Doubles.number Bson.ObjectId) :=
  [mkCall "7" oid1 (cola 10%float); mkCall "8" oid2 (tea ean);
   mkCall "7" oid3 (cola 0.5%float)].

End Shelf.

(** ** The gates and the controller on whatever they receive

    TypeScript's parameter types are gone at run time: a method may be
    handed [undefined], which is no JSON value. Below an argument is an
    [option JsValue], [None] standing for [undefined]. *)

Module Received.

(** [schema.validate(value)] *)
Definition Joi_validate (s : Schema) (value : option JsValue)
    : option ValidationError :=
  match validate_at s [] value with
  | [] => None
  | errors => Some (mkValidationError errors)
  end.

(** [InventoryProvider.validateStore(storeInfo)] *)
Definition validateStore (storeInfo : option JsValue) : Outcome Reply :=
  let schema := store_schema in
  reply_of (Joi_validate schema storeInfo).

(** [ProductProvider.validateProductData(productData)] *)
Definition validateProductData (productData : option JsValue) : Outcome Reply :=
  let schema := product_schema in
  reply_of (Joi_validate schema productData).

(** [ProductProvider.instantiateProduct(productData)]: it reads
    [productData.barcode] first, which throws on [undefined] and on [null];
    [created] and [updated] are the two readings of the clock. *)
Definition instantiateProduct (created updated : Z)
    (productData : option JsValue) : Outcome Catalog.Product :=
  match productData with
  | None | Some JNull => Throw TypeError
  | Some v =>
      Return (Catalog.mkProduct (text "barcode" v) (text "name" v)
                (text "description" v) (text "category_id" v)
                created updated [])
  end.

(** [ProductController.createProduct(productData)] *)
Definition createProduct (created updated : Z) (c : Catalog.Products)
    (productData : option JsValue) : Outcome (Catalog.Products * Reply) :=
  await validation <- validateProductData productData;
  if negb (success validation) then Return (c, validation)
  else
    await product <- instantiateProduct created updated productData;
    let response := Catalog.addProduct c product in
    Return response.

(** One request: the two clock readings and the payload. *)
Record Request : Type := mkRequest {
  created : Z;
  updated : Z;
  payload : option JsValue
}.

Fixpoint createProducts (c : Catalog.Products) (requests : list Request)
    : Outcome Catalog.Products :=
  match requests with
  | [] => Return c
  | r :: rest =>
      await done <- createProduct (created r) (updated r) c (payload r);
      createProducts (fst done) rest
  end.

(** A product as the controller stores it. *)
Definition stored (p : Catalog.Product) : Prop :=
  test digits (Catalog.barcode p) = true /\
  Catalog.name p <> "" /\
  Catalog.description p <> "" /\
  Catalog.category_id p <> "" /\
  Catalog.variants p = [].

(** The morning's requests at the catalog's desk. *)
Definition desk : list Request :=
  [mkRequest 500 501 (Some Samples.cola_product);
   mkRequest 600 600 (Some Samples.nameless_product);
   mkRequest 700 702 (Some Samples.tea_product);
   mkRequest 800 801 (Some Samples.cola_product)].

End Received.

(** * Properties of the ledger *)

Section LedgerFacts.

Context {ObjectId : Type} `{EqDecision ObjectId}.

Implicit Types (db : Db ObjectId) (c : Collection ObjectId).
Implicit Types (d itemData : InventoryData ObjectId) (oid : ObjectId).
Implicit Types (q : InventoryData ObjectId -> bool).
Implicit Types (upd : InventoryData ObjectId -> InventoryData ObjectId).

(** *** Collections inside the database *)

Lemma collection_insert db coll c :
  collection (<[coll := c]> db) coll = c.
Proof. unfold collection, Db in *. by rewrite lookup_insert_eq. Qed.

Lemma collection_insert_ne db coll other c :
  coll ≠ other -> collection (<[coll := c]> db) other = collection db other.
Proof. intros Hne. unfold collection, Db in *. by rewrite lookup_insert_ne. Qed.

Lemma collection_alter db coll (f : Collection ObjectId -> Collection ObjectId) :
  f [] = [] -> collection (alter f coll db) coll = f (collection db coll).
Proof.
  intros Hnil. unfold collection, Db, Collection in *. rewrite lookup_alter_eq.
  destruct (db !! coll) as [c|]; simpl; [done|by rewrite Hnil].
Qed.

Lemma collection_untouched db coll :
  db !! coll = None -> collection db coll = [].
Proof. unfold collection, Db, Collection. by intros ->. Qed.

Lemma collection_empty coll : collection (∅ : Db ObjectId) coll = [].
Proof. unfold collection, Db, Collection. by rewrite lookup_empty. Qed.

(** *** findOne and updateOne *)

Lemma findOne_split q c d :
  findOne q c = Some d ->
  exists l1 l2, c = l1 ++ d :: l2 /\ findOne q l1 = None /\ q d = true.
Proof.
  induction c as [|e c IH]; simpl; [discriminate|].
  destruct (q e) eqn:He.
  - intros [= <-]. exists [], c. auto.
  - intros Hfind. destruct (IH Hfind) as (l1 & l2 & -> & Hl1 & Hd).
    exists (e :: l1), l2. simpl. rewrite He. auto.
Qed.

Lemma findOne_app_miss q l1 l2 :
  findOne q l1 = None -> findOne q (l1 ++ l2) = findOne q l2.
Proof.
  induction l1 as [|e l1 IH]; simpl; [done|].
  destruct (q e); [discriminate|auto].
Qed.

Lemma updateOne_app_miss q upd l1 l2 :
  findOne q l1 = None ->
  updateOne q upd (l1 ++ l2) = l1 ++ updateOne q upd l2.
Proof.
  induction l1 as [|e l1 IH]; simpl; [done|].
  destruct (q e); [discriminate|]. intros Hmiss. by rewrite IH.
Qed.

Lemma updateOne_miss q upd c :
  findOne q c = None -> updateOne q upd c = c.
Proof.
  intros Hmiss. rewrite <- (app_nil_r c) at 1.
  rewrite updateOne_app_miss by done. simpl. apply app_nil_r.
Qed.

Lemma updateOne_length q upd c : length (updateOne q upd c) = length c.
Proof.
  induction c as [|e c IH]; simpl; [done|].
  destruct (q e); simpl; congruence.
Qed.

Lemma updateOne_barcodes q delta c :
  map barcode (updateOne q (inc_stock delta) c) = map barcode c.
Proof.
  induction c as [|e c IH]; simpl; [done|].
  destruct (q e); simpl; congruence.
Qed.

Lemma by_barcode_inc_stock b delta d :
  by_barcode b (inc_stock delta d) = by_barcode b d.
Proof. reflexivity. Qed.

Lemma findOne_by_barcode_None b c :
  findOne (by_barcode b) c = None <-> b ∉ map barcode c.
Proof.
  induction c as [|e c IH]; simpl.
  - split; [intros _; apply not_elem_of_nil|done].
  - unfold by_barcode at 1. case_bool_decide as Hb.
    + split; [discriminate|]. intros Hnot. exfalso. apply Hnot.
      rewrite Hb. apply list_elem_of_here.
    + rewrite IH, not_elem_of_cons. split; [auto|tauto].
Qed.

Lemma findOne_by_barcode_Some b c d :
  findOne (by_barcode b) c = Some d -> barcode d = b.
Proof.
  intros Hfind. apply findOne_split in Hfind as (_ & _ & _ & _ & Hq).
  unfold by_barcode in Hq. by apply bool_decide_eq_true in Hq.
Qed.

(** *** The two branches of addItem *)

Lemma addItem_absent oid db storeId itemData :
  db_findOne db (inventory_store storeId) (by_barcode (barcode itemData)) = None ->
  id_taken oid itemData (collection db (inventory_store storeId)) = false ->
  exists db',
    addItem oid db storeId itemData = Return (db', added) /\
    collection db' (inventory_store storeId)
      = collection db (inventory_store storeId) ++ [with_id oid itemData].
Proof.
  intros Hmiss Hfresh. unfold addItem. rewrite Hmiss.
  unfold db_insertOne, insertOne. rewrite Hfresh. simpl.
  eexists. split; [reflexivity|]. apply collection_insert.
Qed.

Lemma addItem_present oid db storeId itemData d :
  db_findOne db (inventory_store storeId) (by_barcode (barcode itemData)) = Some d ->
  addItem oid db storeId itemData =
    Return (db_updateOne db (inventory_store storeId)
              (by_barcode (barcode itemData)) (inc_stock (stock itemData)),
            added).
Proof. intros Hhit. unfold addItem. by rewrite Hhit. Qed.

Lemma collection_db_updateOne db coll q upd :
  collection (db_updateOne db coll q upd) coll = updateOne q upd (collection db coll).
Proof. unfold db_updateOne. by apply collection_alter. Qed.

Lemma barcode_with_id oid d : barcode (with_id oid d) = barcode d.
Proof. unfold with_id. by destruct (_id d). Qed.

Lemma stock_with_id oid d : stock (with_id oid d) = stock d.
Proof. unfold with_id. by destruct (_id d). Qed.

Lemma records_of_absent db storeId b :
  db_findOne db (inventory_store storeId) (by_barcode b) = None ->
  records_of db storeId b = 0%nat.
Proof.
  unfold db_findOne, records_of. generalize (collection db (inventory_store storeId)).
  intros c. induction c as [|e c IH]; simpl; [done|].
  destruct (by_barcode b e); [discriminate|auto].
Qed.

Lemma records_of_updateOne db storeId q delta b :
  records_of (db_updateOne db (inventory_store storeId) q (inc_stock delta))
    storeId b = records_of db storeId b.
Proof.
  unfold records_of. rewrite collection_db_updateOne.
  generalize (collection db (inventory_store storeId)). intros c.
  induction c as [|e c IH]; simpl; [done|].
  destruct (q e); simpl.
  - rewrite by_barcode_inc_stock. by destruct (by_barcode b e).
  - destruct (by_barcode b e); simpl; congruence.
Qed.

(** What the increment branch does to the partition. *)
Lemma addItem_present_split oid db storeId itemData d :
  db_findOne db (inventory_store storeId) (by_barcode (barcode itemData)) = Some d ->
  exists l1 l2,
    collection db (inventory_store storeId) = l1 ++ d :: l2 /\
    findOne (by_barcode (barcode itemData)) l1 = None /\
    addItem oid db storeId itemData =
      Return (db_updateOne db (inventory_store storeId)
                (by_barcode (barcode itemData)) (inc_stock (stock itemData)),
              added) /\
    collection (db_updateOne db (inventory_store storeId)
                  (by_barcode (barcode itemData)) (inc_stock (stock itemData)))
               (inventory_store storeId)
      = l1 ++ inc_stock (stock itemData) d :: l2.
Proof.
  intros Hhit. pose proof Hhit as Hsplit.
  apply findOne_split in Hsplit as (l1 & l2 & Hc & Hl1 & Hd).
  exists l1, l2. repeat split; try done.
  - by eapply addItem_present.
  - rewrite collection_db_updateOne, Hc, updateOne_app_miss by done.
    simpl. by rewrite Hd.
Qed.

Lemma stock_of_split db storeId b l1 d l2 :
  collection db (inventory_store storeId) = l1 ++ d :: l2 ->
  findOne (by_barcode b) l1 = None ->
  by_barcode b d = true ->
  stock_of db storeId b = Some (stock d).
Proof.
  intros Hc Hl1 Hd. unfold stock_of, db_findOne.
  rewrite Hc, findOne_app_miss by done. simpl. by rewrite Hd.
Qed.

(** *** Sequences of calls *)

Lemma requested_Permutation (calls calls' : list (ObjectId * InventoryData ObjectId)) :
  Permutation calls calls' -> requested calls = requested calls'.
Proof. induction 1; simpl; lia. Qed.

Lemma requested_constant (calls : list (ObjectId * InventoryData ObjectId)) delta :
  Forall (fun call => stock (snd call) = delta) calls ->
  requested calls = Z.of_nat (length calls) * delta.
Proof.
  induction 1 as [|call calls Hcall _ IH]; [reflexivity|].
  cbn [requested length]. rewrite IH, Hcall. lia.
Qed.

Lemma stock_of_Some db storeId b s :
  stock_of db storeId b = Some s ->
  exists d, db_findOne db (inventory_store storeId) (by_barcode b) = Some d /\
            stock d = s.
Proof.
  unfold stock_of.
  destruct (db_findOne db (inventory_store storeId) (by_barcode b)) as [d|];
    simpl; [|discriminate].
  intros [= <-]. eauto.
Qed.

Lemma addItem_increments oid db storeId itemData s :
  stock_of db storeId (barcode itemData) = Some s ->
  exists db',
    addItem oid db storeId itemData = Return (db', added) /\
    stock_of db' storeId (barcode itemData) = Some (s + stock itemData).
Proof.
  intros Hs. apply stock_of_Some in Hs as (d & Hhit & <-).
  destruct (addItem_present_split oid _ _ _ _ Hhit) as (l1 & l2 & Hc & Hl1 & Hadd & Hc').
  eexists. split; [exact Hadd|].
  change (stock d + stock itemData) with (stock (inc_stock (stock itemData) d)).
  eapply stock_of_split; [exact Hc'|exact Hl1|].
  rewrite by_barcode_inc_stock. unfold db_findOne in Hhit.
  apply findOne_split in Hhit as (_ & _ & _ & _ & Hd). exact Hd.
Qed.

Lemma addItems_increment db storeId b s (calls : list (ObjectId * InventoryData ObjectId)) :
  stock_of db storeId b = Some s ->
  Forall (fun call => barcode (snd call) = b) calls ->
  exists db',
    addItems db storeId calls = Return db' /\
    stock_of db' storeId b = Some (s + requested calls).
Proof.
  intros Hs Hall. revert db s Hs.
  induction Hall as [|[oid itemData] calls Hb _ IH]; intros db s Hs.
  - exists db. simpl. split; [reflexivity|]. rewrite Hs. f_equal. lia.
  - simpl in Hb. subst b.
    destruct (addItem_increments oid _ _ _ _ Hs) as (db1 & Hadd & Hs1).
    destruct (IH _ _ Hs1) as (db' & Hrest & Hs').
    exists db'. cbn [addItems requested snd]. rewrite Hadd. simpl.
    split; [exact Hrest|]. rewrite Hs'. f_equal. lia.
Qed.

(** *** The order of a partition *)

Lemma addItem_barcodes oid db storeId itemData db' r :
  addItem oid db storeId itemData = Return (db', r) ->
  map barcode (collection db' (inventory_store storeId))
    = note (map barcode (collection db (inventory_store storeId)))
           (barcode itemData).
Proof.
  destruct (db_findOne db (inventory_store storeId)
              (by_barcode (barcode itemData))) as [d|] eqn:Hfind.
  - rewrite (addItem_present _ _ _ _ _ Hfind). intros [= <- _].
    rewrite collection_db_updateOne, updateOne_barcodes.
    unfold note. rewrite bool_decide_eq_true_2; [done|].
    destruct (decide (barcode itemData
                        ∈ map barcode (collection db (inventory_store storeId))))
      as [Hin|Hout]; [done|].
    apply findOne_by_barcode_None in Hout. unfold db_findOne in Hfind. congruence.
  - unfold addItem. rewrite Hfind. unfold db_insertOne, insertOne.
    destruct (id_taken oid itemData (collection db (inventory_store storeId)));
      simpl; [discriminate|].
    intros [= <- _]. rewrite collection_insert, map_app. simpl.
    rewrite barcode_with_id. unfold note. rewrite bool_decide_eq_false_2; [done|].
    by apply findOne_by_barcode_None.
Qed.

Lemma addItems_barcodes db storeId (calls : list (ObjectId * InventoryData ObjectId)) db' :
  addItems db storeId calls = Return db' ->
  map barcode (collection db' (inventory_store storeId))
    = fold_left note (map (fun call => barcode (snd call)) calls)
        (map barcode (collection db (inventory_store storeId))).
Proof.
  revert db. induction calls as [|[oid itemData] calls IH]; intros db; simpl.
  - by intros [= <-].
  - destruct (addItem oid db storeId itemData) as [[db1 r]|e] eqn:Hadd;
      simpl; [|discriminate].
    intros Hrest. rewrite (IH _ Hrest). by rewrite (addItem_barcodes _ _ _ _ _ _ Hadd).
Qed.

End LedgerFacts.

(** * Lookup by barcode or identifier *)

Lemma is_digit_hex c : is_digit c = true -> is_Some (hex_value c).
Proof.
  unfold is_digit, hex_value. intros Hc. rewrite Hc. eauto.
Qed.

Lemma all_digits_all_hex s : all_digits s = true -> all_hex s = true.
Proof.
  induction s as [|c s IH]; simpl; [done|].
  intros [Hc Hs]%andb_true_iff. apply andb_true_iff. split; [|auto].
  apply bool_decide_eq_true. by apply is_digit_hex.
Qed.

Section Lookup.

Context {ObjectId : Type} `{EqDecision ObjectId}.
Variable ObjectId_new : string -> option ObjectId.
Variable ObjectId_isValid : string -> bool.

Implicit Types (db : Db ObjectId) (oid : ObjectId).

Local Abbreviation getItem :=
  (getItemByBarcodeOrID ObjectId_new ObjectId_isValid).

Lemma getItem_by_barcode db storeId s :
  ObjectId_isValid s = false ->
  getItem db storeId s =
    match db_findOne db (inventory_store storeId) (by_barcode s) with
    | None => Return not_found
    | Some p => Return (retrieved p)
    end.
Proof. intros Hs. unfold getItemByBarcodeOrID. by rewrite Hs. Qed.

Lemma getItem_by_id db storeId s :
  ObjectId_isValid s = true ->
  getItem db storeId s =
    match ObjectId_new s with
    | None => Throw BSONError
    | Some oid =>
        match db_findOne db (inventory_store storeId) (by_id oid) with
        | None => Return not_found
        | Some p => Return (retrieved p)
        end
    end.
Proof. intros Hs. unfold getItemByBarcodeOrID. by rewrite Hs. Qed.

(** C3. GetItem looks an identifier-shaped input up by identifier and
    every other string by barcode; when the lookup it makes finds no
    record, the reply is [{ success: false, message: "Item not found" }]
    without an item, on either path; and provided the driver's [isValid]
    accepts only what its constructor accepts, the call never throws. *)
Theorem getItem_routes_and_reports_absence db storeId s :
  (ObjectId_isValid s = false ->
   getItem db storeId s =
     match db_findOne db (inventory_store storeId) (by_barcode s) with
     | None => Return not_found
     | Some p => Return (retrieved p)
     end)
  /\
  (forall oid,
   ObjectId_isValid s = true -> ObjectId_new s = Some oid ->
   getItem db storeId s =
     match db_findOne db (inventory_store storeId) (by_id oid) with
     | None => Return not_found
     | Some p => Return (retrieved p)
     end)
  /\
  (ObjectId_isValid s = false ->
   db_findOne db (inventory_store storeId) (by_barcode s) = None ->
   getItem db storeId s = Return (mkItemReply false "Item not found" None))
  /\
  (forall oid,
   ObjectId_isValid s = true -> ObjectId_new s = Some oid ->
   db_findOne db (inventory_store storeId) (by_id oid) = None ->
   getItem db storeId s = Return (mkItemReply false "Item not found" None))
  /\
  ((forall x, ObjectId_isValid x = true -> is_Some (ObjectId_new x)) ->
   returns (getItem db storeId s) = true).
Proof.
  split; [apply getItem_by_barcode|].
  split; [intros oid Hs Hoid; by rewrite getItem_by_id, Hoid|].
  split; [intros Hs Hmiss; by rewrite getItem_by_barcode, Hmiss|].
  split; [intros oid Hs Hoid Hmiss; by rewrite getItem_by_id, Hoid, Hmiss|].
  intros Hctor. destruct (ObjectId_isValid s) eqn:Hs.
  - rewrite getItem_by_id by done. destruct (Hctor s Hs) as [oid ->].
    by destruct (db_findOne db (inventory_store storeId) (by_id oid)).
  - rewrite getItem_by_barcode by done.
    by destruct (db_findOne db (inventory_store storeId) (by_barcode s)).
Qed.

End Lookup.

(** * Timestamps and the catalog *)

Section Frame.

Context {ObjectId : Type} `{EqDecision ObjectId}.

Implicit Types (db : Db ObjectId) (d itemData : InventoryData ObjectId).
Implicit Types (oid : ObjectId).

(** The increment branch rewrites the stock and nothing else: the stored
    timestamps, that of the last update included, stay as they were. *)
Lemma addItem_increment_frame oid db storeId itemData d :
  db_findOne db (inventory_store storeId) (by_barcode (barcode itemData)) = Some d ->
  exists db' d',
    addItem oid db storeId itemData = Return (db', added) /\
    db_findOne db' (inventory_store storeId) (by_barcode (barcode itemData)) = Some d' /\
    stock d' = stock d + stock itemData /\
    created_at d' = created_at d /\
    updated_at d' = updated_at d /\
    (_id d', barcode d', name d', description d', price d', supplier d', variants d')
      = (_id d, barcode d, name d, description d, price d, supplier d, variants d).
Proof.
  intros Hhit.
  destruct (addItem_present_split oid _ _ _ _ Hhit) as (l1 & l2 & Hc & Hl1 & Hadd & Hc').
  eexists _, (inc_stock (stock itemData) d). split; [exact Hadd|].
  split; [|by repeat split].
  unfold db_findOne. rewrite Hc', findOne_app_miss by done. simpl.
  rewrite by_barcode_inc_stock. unfold db_findOne in Hhit.
  apply findOne_split in Hhit as (_ & _ & _ & _ & ->). reflexivity.
Qed.

(** C5, as the code has it. AddItem takes the store, the payload and
    nothing else. On a barcode the store does not hold, the record it
    inserts carries the payload's own fields, name and description
    included, whatever the catalog says about the barcode. *)
Theorem addItem_inserts_payload_fields oid db storeId itemData :
  db_findOne db (inventory_store storeId) (by_barcode (barcode itemData)) = None ->
  id_taken oid itemData (collection db (inventory_store storeId)) = false ->
  exists db' d,
    addItem oid db storeId itemData = Return (db', added) /\
    db_findOne db' (inventory_store storeId) (by_barcode (barcode itemData)) = Some d /\
    d = with_id oid itemData /\
    name d = name itemData /\
    description d = description itemData /\
    (price d, stock d, supplier d, created_at d, updated_at d, variants d)
      = (price itemData, stock itemData, supplier itemData,
         created_at itemData, updated_at itemData, variants itemData).
Proof.
  intros Hmiss Hfresh.
  destruct (addItem_absent oid _ _ _ Hmiss Hfresh) as (db' & Hadd & Hc').
  exists db', (with_id oid itemData). split; [exact Hadd|]. split.
  - unfold db_findOne in *. rewrite Hc', findOne_app_miss by done. simpl.
    unfold by_barcode. rewrite barcode_with_id.
    by rewrite bool_decide_eq_true_2.
  - unfold with_id. by destruct (_id itemData).
Qed.

End Frame.

(** C6 at the failing input. Ten cans are in stock since time 1000; five
    more are added at time 2000. The stock becomes 15, and the record still
    says it was last updated at time 1000. *)
Theorem increment_leaves_updated_at_stale :
  exists db' d,
    addItem Scenario.oid2 Scenario.stocked Scenario.store (Scenario.cola 2000 5)
      = Return (db', added) /\
    updated_at (Scenario.cola 2000 5) = 2000 /\
    db_findOne db' (inventory_store Scenario.store) (by_barcode "1001") = Some d /\
    stock d = 15 /\
    created_at d = 1000 /\
    updated_at d = 1000.
Proof.
  destruct (addItem_increment_frame Scenario.oid2 Scenario.stocked Scenario.store
              (Scenario.cola 2000 5) (with_id Scenario.oid1 (Scenario.cola 1000 10)))
    as (db' & d & Hadd & Hfind & Hstock & Hcreated & Hupdated & _).
  { vm_compute. reflexivity. }
  exists db', d. repeat split; assumption.
Qed.

(** C5, the counterexample. The catalog knows barcode 1001 as "Cola" with a
    description; store 7 has no record of it; the payload calls it "Kola".
    After AddItem the local record is not the catalog's. *)
Lemma addItem_does_not_seed_from_catalog :
  Catalog.findOne "1001" Scenario.catalog <> None /\
  db_findOne Scenario.untouched (inventory_store Scenario.store)
    (by_barcode "1001") = None /\
  exists db',
    addItem Scenario.oid1 Scenario.untouched Scenario.store Scenario.kola
      = Return (db', added) /\
    ~ seeded_from_catalog Scenario.catalog db' Scenario.store "1001".
Proof.
  split; [vm_compute; discriminate|]. split; [vm_compute; reflexivity|].
  eexists. split; [vm_compute; reflexivity|].
  intros (p & d & Hp & Hd & Hname & _).
  vm_compute in Hp, Hd. injection Hp as <-. injection Hd as <-.
  discriminate Hname.
Qed.

(** * Calls that interleave *)

Section Interleaving.

Context {ObjectId : Type} `{EqDecision ObjectId}.

Implicit Types (db : Db ObjectId) (d itemData : InventoryData ObjectId).
Implicit Types (oid : ObjectId) (t : AddItemTask ObjectId).
Implicit Types (ts : list (AddItemTask ObjectId)).
Implicit Types (st : Db ObjectId * list (AddItemTask ObjectId)).

(** Run alone, a task is the method: two steps take it from the call to
    the reply, through the same storage operations. *)
Lemma task_alone_is_addItem oid db storeId itemData :
  let first := step_task db (spawn oid storeId itemData) in
  let second := step_task (fst first) (snd first) in
  match addItem oid db storeId itemData with
  | Return (db', reply) =>
      second = (db', goto (spawn oid storeId itemData) (Finished reply))
  | Throw e =>
      second = (db, goto (spawn oid storeId itemData) (Failed e))
  end.
Proof.
  unfold addItem, step_task; simpl.
  destruct (db_findOne db (inventory_store storeId)
              (by_barcode (barcode itemData))) as [d|]; simpl; [reflexivity|].
  by destruct (db_insertOne oid db (inventory_store storeId) itemData).
Qed.

Lemma applied_insert ts i t t' :
  ts !! i = Some t ->
  applied (<[i := t']> ts) = applied ts - weight t + weight t'.
Proof.
  revert i. induction ts as [|u ts IH]; intros [|i]; simpl; try discriminate.
  - intros [= ->]. unfold weight. lia.
  - intros Hi. rewrite (IH _ Hi). lia.
Qed.

Lemma calls_of_insert ts i t t' :
  ts !! i = Some t ->
  task_oid t' = task_oid t -> task_item t' = task_item t ->
  calls_of (<[i := t']> ts) = calls_of ts.
Proof.
  intros Hi Hoid Hitem. revert i Hi.
  induction ts as [|u ts IH]; intros [|i]; simpl; try discriminate.
  - intros [= ->]. unfold calls_of. simpl. by rewrite Hoid, Hitem.
  - intros Hi. unfold calls_of in *. simpl. f_equal. by apply IH.
Qed.

Lemma applied_all_finished ts :
  forallb finished ts = true -> applied ts = requested (calls_of ts).
Proof.
  induction ts as [|t ts IH]; simpl; [done|].
  intros [Ht Hts]%andb_true_iff. rewrite Ht, IH by done. reflexivity.
Qed.

Lemma incrementing_not_inserting storeId b ts :
  Forall (incrementing storeId b) ts -> existsb inserting ts = false.
Proof.
  induction 1 as [|t ts (_ & _ & Hpc) _ IH]; simpl; [done|].
  rewrite IH, orb_false_r. unfold inserting.
  destruct Hpc as [->|[[d ->]| ->]]; reflexivity.
Qed.

Lemma stock_of_db_updateOne db storeId b s delta :
  stock_of db storeId b = Some s ->
  stock_of (db_updateOne db (inventory_store storeId) (by_barcode b)
              (inc_stock delta)) storeId b = Some (s + delta).
Proof.
  intros Hs. apply stock_of_Some in Hs as (d & Hhit & <-).
  unfold db_findOne in Hhit.
  apply findOne_split in Hhit as (l1 & l2 & Hc & Hl1 & Hd).
  change (stock d + delta) with (stock (inc_stock delta d)).
  eapply stock_of_split; [|exact Hl1|by rewrite by_barcode_inc_stock].
  rewrite collection_db_updateOne, Hc, updateOne_app_miss by done.
  simpl. by rewrite Hd.
Qed.

Lemma step_settled storeId b s n calls st i :
  settled storeId b s n calls st -> settled storeId b s n calls (step st i).
Proof.
  destruct st as [db ts]. intros (Hstock & Hcount & Hall & Hcalls).
  unfold step. simpl in *.
  destruct (ts !! i) as [t|] eqn:Hi; [|by repeat split].
  pose proof (proj1 (Forall_lookup _ _) Hall _ _ Hi) as (Hstore & Hb & Hpc).
  unfold step_task. destruct Hpc as [Hpc|[[d Hpc]|Hpc]]; rewrite Hpc; simpl.
  - (* the lookup finds the record *)
    rewrite Hstore, Hb.
    destruct (stock_of_Some _ _ _ _ Hstock) as (d & Hhit & _). rewrite Hhit.
    repeat split; simpl.
    + rewrite (applied_insert _ _ _ _ Hi). unfold weight, finished.
      rewrite Hpc. simpl. by rewrite Z.sub_0_r, Z.add_0_r.
    + done.
    + apply Forall_insert; [done|]. repeat split; simpl; eauto.
    + by rewrite (calls_of_insert _ _ _ _ Hi).
  - (* the atomic increment *)
    rewrite Hstore, Hb. repeat split; simpl.
    + rewrite (stock_of_db_updateOne _ _ _ _ _ Hstock).
      rewrite (applied_insert _ _ _ _ Hi). unfold weight, finished.
      rewrite Hpc. simpl. f_equal. lia.
    + rewrite records_of_updateOne. done.
    + apply Forall_insert; [done|]. repeat split; simpl; eauto.
    + by rewrite (calls_of_insert _ _ _ _ Hi).
  - (* the task has replied already *)
    rewrite list_insert_id by done. by repeat split.
Qed.

Lemma run_settled storeId b s n calls schedule st :
  settled storeId b s n calls st -> settled storeId b s n calls (run schedule st).
Proof.
  revert st. induction schedule as [|i schedule IH]; intros st Hst; [done|].
  simpl. apply IH. by apply step_settled.
Qed.

Lemma starting_settled storeId b s db ts :
  stock_of db storeId b = Some s ->
  Forall (starting storeId b) ts ->
  settled storeId b s (records_of db storeId b) (calls_of ts) (db, ts).
Proof.
  intros Hs Hall. unfold settled. simpl.
  assert (Happlied : applied ts = 0).
  { induction Hall as [|t ts (_ & _ & Hpc) _ IH]; simpl; [done|].
    unfold finished. rewrite Hpc, IH. reflexivity. }
  rewrite Happlied, Z.add_0_r. repeat split; try done.
  eapply Forall_impl; [exact Hall|].
  intros t (Hstore & Hb & Hpc). repeat split; auto.
Qed.


Lemma calls_of_tasks_of storeId (calls : list (ObjectId * InventoryData ObjectId)) :
  calls_of (tasks_of storeId calls) = calls.
Proof.
  induction calls as [|[oid itemData] calls IH]; [reflexivity|].
  unfold calls_of, tasks_of in *. simpl. by rewrite IH.
Qed.

Lemma starting_tasks_of storeId b (calls : list (ObjectId * InventoryData ObjectId)) :
  Forall (fun call => barcode (snd call) = b) calls ->
  Forall (starting storeId b) (tasks_of storeId calls).
Proof.
  induction 1 as [|call calls Hb _ IH]; [constructor|].
  constructor; [|exact IH]. by repeat split.
Qed.

End Interleaving.


(** * The validation gate *)

Lemma digits_nonempty b : b <> "" -> test digits b = all_digits b.
Proof. intros Hne. simpl. by rewrite bool_decide_eq_false_2. Qed.

Section Gate.

Variable number_coerce : string -> Coercion.

Local Abbreviation validateItem := (validateItemData number_coerce).

(** The reply is built from the first report, and there always is one
    when validation fails. *)
Lemma validateItemData_reply itemData :
  exists reply,
    validateItem itemData = Return reply /\
    match Joi_validate (item_schema number_coerce) itemData with
    | None => reply = mkReply true None
    | Some error =>
        exists d rest,
          details error = d :: rest /\
          reply = mkReply false (Some (detail_message d))
    end.
Proof.
  unfold validateItemData, reply_of, Joi_validate. cbv zeta.
  destruct (validate_at (item_schema number_coerce) [] (Some itemData))
    as [|d rest]; simpl; [eauto|].
  eexists. split; [reflexivity|]. by exists d, rest.
Qed.

Lemma validateItemData_bad_barcode fields b :
  get "barcode" fields = Some (JStr b) ->
  b <> "" ->
  test digits b = false ->
  validateItem (JObj fields)
    = Return (mkReply false (Some "'barcode' must be a string of numbers")).
Proof.
  intros Hget Hne Htest. rewrite digits_nonempty in Htest by done.
  unfold validateItemData, Joi_validate, item_schema. simpl.
  rewrite Hget. simpl. rewrite bool_decide_eq_false_2 by done. simpl.
  rewrite Htest. reflexivity.
Qed.

Lemma validateItemData_missing_name fields b :
  get "barcode" fields = Some (JStr b) ->
  test digits b = true ->
  get "name" fields = None ->
  validateItem (JObj fields)
    = Return (mkReply false (Some (quoted "name" +:+ " is required"))).
Proof.
  intros Hget Htest Hname.
  assert (Hne : b <> "") by (intros ->; discriminate).
  rewrite digits_nonempty in Htest by done.
  unfold validateItemData, Joi_validate, item_schema. simpl.
  rewrite Hget. simpl. rewrite bool_decide_eq_false_2 by done. simpl.
  rewrite Htest. simpl. rewrite Hname. reflexivity.
Qed.

Lemma safe_number n :
  Z.abs n <= MAX_SAFE_INTEGER ->
  (overflow <=? Z.abs n) = false /\ (MAX_SAFE_INTEGER <? Z.abs n) = false.
Proof.
  intros Hsafe.
  assert (Hgap : MAX_SAFE_INTEGER < overflow) by (vm_compute; reflexivity).
  split; [apply Z.leb_gt|apply Z.ltb_ge]; lia.
Qed.

Lemma validateItemData_well_formed b n d sup p q :
  test digits b = true -> n <> "" ->
  Z.abs p <= MAX_SAFE_INTEGER -> Z.abs q <= MAX_SAFE_INTEGER ->
  validateItem
    (JObj [("barcode", JStr b); ("name", JStr n); ("description", JStr d);
           ("price", JNum p); ("stock", JNum q); ("supplier", JStr sup)])
    = Return (mkReply true None).
Proof.
  intros Htest Hn Hp Hq.
  assert (Hb : b <> "") by (intros ->; discriminate).
  rewrite digits_nonempty in Htest by done.
  unfold validateItemData, Joi_validate, item_schema. simpl.
  rewrite (bool_decide_eq_false_2 (b = "")) by done. simpl. rewrite Htest. simpl.
  rewrite (bool_decide_eq_false_2 (n = "")) by done. simpl.
  destruct (safe_number p Hp) as [-> ->]. destruct (safe_number q Hq) as [-> ->].
  simpl.
  destruct (decide (d = "")) as [->|Hd]; simpl;
    [|rewrite (bool_decide_eq_false_2 ("" = d)) by congruence; simpl;
      rewrite (bool_decide_eq_false_2 (d = "")) by done; simpl];
    (destruct (decide (sup = "")) as [->|Hsup]; simpl;
     [|rewrite (bool_decide_eq_false_2 ("" = sup)) by congruence; simpl;
       rewrite (bool_decide_eq_false_2 (sup = "")) by done; simpl]);
    reflexivity.
Qed.

(** C7. The gate rejects a barcode that is not all digits, "12a4" among
    them, with the message that names the field and what it must be; it
    accepts the payload with barcode "1234"; it rejects a payload without
    a name; it accepts empty strings for description and supplier, as it
    accepts every payload of digits, a name and safe numbers whatever the
    two strings are; and on every payload it returns, never throws: success
    when the schema reports nothing, otherwise [{ success: false, message }]
    with the message of the first report. *)
Theorem validateItemData_reports_first_violation :
  (forall fields,
     get "barcode" fields = Some (JStr "12a4") ->
     validateItem (JObj fields)
       = Return (mkReply false (Some "'barcode' must be a string of numbers")))
  /\
  (forall fields b,
     get "barcode" fields = Some (JStr b) -> b <> "" ->
     test digits b = false ->
     validateItem (JObj fields)
       = Return (mkReply false (Some "'barcode' must be a string of numbers")))
  /\
  validateItem
    (JObj [("barcode", JStr "1234"); ("name", JStr "Cola");
           ("price", JNum 150); ("stock", JNum 10)])
    = Return (mkReply true None)
  /\
  (forall fields b,
     get "barcode" fields = Some (JStr b) -> test digits b = true ->
     get "name" fields = None ->
     validateItem (JObj fields)
       = Return (mkReply false (Some (quoted "name" +:+ " is required"))))
  /\
  validateItem
    (JObj [("barcode", JStr "1234"); ("name", JStr "Cola");
           ("description", JStr ""); ("price", JNum 150);
           ("stock", JNum 10); ("supplier", JStr "")])
    = Return (mkReply true None)
  /\
  (forall b n d sup p q,
     test digits b = true -> n <> "" ->
     Z.abs p <= MAX_SAFE_INTEGER -> Z.abs q <= MAX_SAFE_INTEGER ->
     validateItem
       (JObj [("barcode", JStr b); ("name", JStr n); ("description", JStr d);
              ("price", JNum p); ("stock", JNum q); ("supplier", JStr sup)])
       = Return (mkReply true None))
  /\
  (forall itemData,
     exists reply,
       validateItem itemData = Return reply /\
       match Joi_validate (item_schema number_coerce) itemData with
       | None => reply = mkReply true None
       | Some error =>
           exists d rest,
             details error = d :: rest /\
             reply = mkReply false (Some (detail_message d))
       end).
Proof.
  split; [intros fields Hget; by eapply validateItemData_bad_barcode|].
  split; [apply validateItemData_bad_barcode|].
  split; [reflexivity|].
  split; [apply validateItemData_missing_name|].
  split; [reflexivity|].
  split; [apply validateItemData_well_formed|].
  apply validateItemData_reply.
Qed.

(** C8 at the failing input. A payload whose one variant has the shape of
    [class Variant], a name with a price and a stock, is turned away
    because the variant schema declares the name only; the same payload
    passes once the variant is reduced to its name. *)
Theorem variant_of_the_data_model_is_rejected :
  validateItem (JObj (Scenario.payload ++ [("variants", JArr [Scenario.can])]))
    = Return (mkReply false
                (Some (quoted "variants[0].price" +:+ " is not allowed")))
  /\
  validateItem
    (JObj (Scenario.payload
             ++ [("variants", JArr [JObj [("name", JStr "Can")]])]))
    = Return (mkReply true None).
Proof. split; reflexivity. Qed.

End Gate.

(** * The concrete driver *)

Lemma Bson_isValid_new x :
  Bson.ObjectId_isValid x = true -> is_Some (Bson.ObjectId_new x).
Proof.
  unfold Bson.ObjectId_isValid.
  destruct (Bson.ObjectId_new x); [eauto|discriminate].
Qed.

(** * Worked instances on the scenario of store 7 *)

Lemma getItem_routes_and_reports_absence_witness :
  (Bson.ObjectId_isValid "1001" = false /\
   getItemByBarcodeOrID Bson.ObjectId_new Bson.ObjectId_isValid
     Scenario.stocked Scenario.store "1001"
     = Return (retrieved (with_id Scenario.oid1 (Scenario.cola 1000 10))))
  /\
  (Bson.ObjectId_isValid "616161616161616161616161" = true /\
   Bson.ObjectId_new "616161616161616161616161" = Some Scenario.oid1 /\
   getItemByBarcodeOrID Bson.ObjectId_new Bson.ObjectId_isValid
     Scenario.stocked Scenario.store "616161616161616161616161"
     = Return (retrieved (with_id Scenario.oid1 (Scenario.cola 1000 10))))
  /\
  (Bson.ObjectId_isValid "2002" = false /\
   db_findOne Scenario.stocked (inventory_store Scenario.store) (by_barcode "2002")
     = None /\
   getItemByBarcodeOrID Bson.ObjectId_new Bson.ObjectId_isValid
     Scenario.stocked Scenario.store "2002"
     = Return (mkItemReply false "Item not found" None))
  /\
  (Bson.ObjectId_isValid "636363636363636363636363" = true /\
   Bson.ObjectId_new "636363636363636363636363" = Some "cccccccccccc" /\
   db_findOne Scenario.stocked (inventory_store Scenario.store)
     (by_id ("cccccccccccc" : Bson.ObjectId)) = None /\
   getItemByBarcodeOrID Bson.ObjectId_new Bson.ObjectId_isValid
     Scenario.stocked Scenario.store "636363636363636363636363"
     = Return (mkItemReply false "Item not found" None))
  /\
  returns (getItemByBarcodeOrID Bson.ObjectId_new Bson.ObjectId_isValid
             Scenario.stocked Scenario.store "1001") = true.
Proof.
  split; [|split; [|split; [|split]]].
  - split; [reflexivity|].
    rewrite (proj1 (getItem_routes_and_reports_absence
                      Bson.ObjectId_new Bson.ObjectId_isValid
                      Scenario.stocked Scenario.store "1001") eq_refl).
    vm_compute; reflexivity.
  - split; [reflexivity|]. split; [reflexivity|].
    rewrite (proj1 (proj2 (getItem_routes_and_reports_absence
                             Bson.ObjectId_new Bson.ObjectId_isValid
                             Scenario.stocked Scenario.store "616161616161616161616161"))
               Scenario.oid1 eq_refl eq_refl).
    vm_compute; reflexivity.
  - split; [reflexivity|]. split; [vm_compute; reflexivity|].
    apply (proj1 (proj2 (proj2 (getItem_routes_and_reports_absence
                                  Bson.ObjectId_new Bson.ObjectId_isValid
                                  Scenario.stocked Scenario.store "2002"))));
      vm_compute; reflexivity.
  - split; [reflexivity|]. split; [reflexivity|]. split; [vm_compute; reflexivity|].
    apply (proj1 (proj2 (proj2 (proj2 (getItem_routes_and_reports_absence
                                         Bson.ObjectId_new Bson.ObjectId_isValid
                                         Scenario.stocked Scenario.store
                                         "636363636363636363636363"))))
             "cccccccccccc");
      vm_compute; reflexivity.
  - apply (proj2 (proj2 (proj2 (proj2 (getItem_routes_and_reports_absence
                                         Bson.ObjectId_new Bson.ObjectId_isValid
                                         Scenario.stocked Scenario.store "1001"))))).
    exact Bson_isValid_new.
Defined.

Lemma addItem_inserts_payload_fields_witness :
  exists db' d,
    addItem Scenario.oid1 Scenario.untouched Scenario.store Scenario.kola
      = Return (db', added) /\
    db_findOne db' (inventory_store Scenario.store) (by_barcode "1001") = Some d /\
    d = with_id Scenario.oid1 Scenario.kola /\
    name d = "Kola" /\
    description d = "" /\
    (price d, stock d, supplier d, created_at d, updated_at d, variants d)
      = (150, 10, "", 1000, 1000, []).
Proof.
  apply (addItem_inserts_payload_fields Scenario.oid1 Scenario.untouched
           Scenario.store Scenario.kola);
    vm_compute; reflexivity.
Defined.


Lemma validateItemData_reports_first_violation_witness :
  validateItemData Scenario.strict
    (JObj [("barcode", JStr "12a4"); ("name", JStr "Cola");
           ("price", JNum 150); ("stock", JNum 10)])
    = Return (mkReply false (Some "'barcode' must be a string of numbers"))
  /\
  validateItemData Scenario.strict
    (JObj [("barcode", JStr "1234"); ("price", JNum 150); ("stock", JNum 10)])
    = Return (mkReply false (Some (quoted "name" +:+ " is required")))
  /\
  validateItemData Scenario.strict
    (JObj [("barcode", JStr "1234"); ("name", JStr "Cola");
           ("description", JStr ""); ("price", JNum 150);
           ("stock", JNum 10); ("supplier", JStr "Acme")])
    = Return (mkReply true None).
Proof.
  split; [|split].
  - apply (proj1 (validateItemData_reports_first_violation Scenario.strict)).
    reflexivity.
  - apply (proj1 (proj2 (proj2 (proj2
             (validateItemData_reports_first_violation Scenario.strict))))
             _ "1234");
      reflexivity.
  - apply (proj1 (proj2 (proj2 (proj2 (proj2 (proj2
             (validateItemData_reports_first_violation Scenario.strict))))))).
    + reflexivity.
    + discriminate.
    + vm_compute; discriminate.
    + vm_compute; discriminate.
Defined.

(** * Further properties of the ledger *)

Lemma inventory_store_inj a b : inventory_store a = inventory_store b -> a = b.
Proof. unfold inventory_store. cbn. by intros [=]. Qed.

Lemma note_NoDup seen b : NoDup seen -> NoDup (note seen b).
Proof.
  intros Hseen. unfold note. case_bool_decide as Hin; [done|].
  apply NoDup_app. repeat split; [done| |apply NoDup_singleton].
  intros x Hx ->%list_elem_of_singleton. done.
Qed.

Lemma fold_note_NoDup bs seen : NoDup seen -> NoDup (fold_left note bs seen).
Proof.
  revert seen. induction bs as [|b bs IH]; intros seen Hseen; [done|].
  simpl. apply IH. by apply note_NoDup.
Qed.

Section LedgerMore.

Context {ObjectId : Type} `{EqDecision ObjectId}.
Variable ObjectId_new : string -> option ObjectId.
Variable ObjectId_isValid : string -> bool.

Implicit Types (db : Db ObjectId) (c : Collection ObjectId).
Implicit Types (d itemData : InventoryData ObjectId) (oid : ObjectId).
Implicit Types (q : InventoryData ObjectId -> bool).

Local Abbreviation getItem :=
  (getItemByBarcodeOrID ObjectId_new ObjectId_isValid).

Lemma collection_alter_ne db coll other (f : Collection ObjectId -> Collection ObjectId) :
  coll <> other -> collection (alter f coll db) other = collection db other.
Proof.
  intros Hne. unfold collection, Db, Collection in *. by rewrite lookup_alter_ne.
Qed.

Lemma addItem_elsewhere oid db storeId itemData db' r coll :
  addItem oid db storeId itemData = Return (db', r) ->
  coll <> inventory_store storeId ->
  collection db' coll = collection db coll.
Proof.
  intros Hadd Hne. unfold addItem in Hadd.
  destruct (db_findOne db (inventory_store storeId)
              (by_barcode (barcode itemData))) as [d|].
  - injection Hadd as <- _. unfold db_updateOne. by apply collection_alter_ne.
  - unfold db_insertOne, insertOne in Hadd.
    destruct (id_taken oid itemData (collection db (inventory_store storeId)));
      simpl in Hadd; [discriminate|].
    injection Hadd as <- _. by apply collection_insert_ne.
Qed.

Lemma addItems_elsewhere db storeId (calls : list (ObjectId * InventoryData ObjectId))
    db' coll :
  addItems db storeId calls = Return db' ->
  coll <> inventory_store storeId ->
  collection db' coll = collection db coll.
Proof.
  intros Hrun Hne. revert db Hrun.
  induction calls as [|[oid itemData] calls IH]; intros db; simpl.
  - by intros [= <-].
  - destruct (addItem oid db storeId itemData) as [[db1 r]|e] eqn:Hadd;
      simpl; [|discriminate].
    intros Hrest. rewrite (IH _ Hrest). by eapply addItem_elsewhere.
Qed.

(** X1. AddItem writes to the partition of its own store only: what the
    inventory and the item lookup of any other store return is the same
    before and after the call. *)
Theorem addItem_touches_one_store oid db storeId other itemData db' r :
  other <> storeId ->
  addItem oid db storeId itemData = Return (db', r) ->
  getInventory db' other = getInventory db other /\
  (forall s, getItem db' other s = getItem db other s).
Proof.
  intros Hother Hadd.
  assert (Hsame : collection db' (inventory_store other)
                  = collection db (inventory_store other)).
  { eapply addItem_elsewhere; [exact Hadd|].
    intros Heq. by apply Hother, inventory_store_inj. }
  split.
  - unfold getInventory. by rewrite Hsame.
  - intros s. unfold getItemByBarcodeOrID, db_findOne. by rewrite Hsame.
Qed.

Lemma NoDup_barcodes_records c b :
  NoDup (map barcode c) -> (length (List.filter (by_barcode b) c) <= 1)%nat.
Proof.
  induction c as [|e c IH]; simpl; [lia|].
  intros [Hnotin Hrest]%NoDup_cons. specialize (IH Hrest).
  unfold by_barcode at 1. case_bool_decide as Hb; [|done].
  simpl. enough (List.filter (by_barcode b) c = []) as -> by (simpl; lia).
  destruct (List.filter (by_barcode b) c) as [|x rest] eqn:Hfilter; [done|].
  exfalso. apply Hnotin.
  assert (Hx : In x (List.filter (by_barcode b) c)) by (rewrite Hfilter; by left).
  apply filter_In in Hx as [Hx Hbx]. unfold by_barcode in Hbx.
  apply bool_decide_eq_true in Hbx. rewrite Hb, <- Hbx.
  apply list_elem_of_In, in_map. exact Hx.
Qed.

(** X2. Calls made one after the other keep barcodes unique: when no
    partition of the database holds a barcode twice, none does after any
    run of AddItem calls that returns, so every barcode has at most one
    record in every store. *)
Theorem addItems_keep_barcodes_unique db storeId
    (calls : list (ObjectId * InventoryData ObjectId)) db' :
  (forall s, NoDup (map barcode (collection db (inventory_store s)))) ->
  addItems db storeId calls = Return db' ->
  forall s,
    NoDup (map barcode (collection db' (inventory_store s))) /\
    (forall b, (records_of db' s b <= 1)%nat).
Proof.
  intros Hunique Hrun s.
  assert (Hs : NoDup (map barcode (collection db' (inventory_store s)))).
  { destruct (decide (s = storeId)) as [->|Hne].
    - rewrite (addItems_barcodes _ _ _ _ Hrun). by apply fold_note_NoDup.
    - rewrite (addItems_elsewhere _ _ _ _ _ Hrun); [done|].
      intros Heq. by apply Hne, inventory_store_inj. }
  split; [exact Hs|]. intros b. unfold records_of.
  by apply NoDup_barcodes_records.
Qed.

Lemma addItem_then_findOne oid db storeId itemData db' r :
  addItem oid db storeId itemData = Return (db', r) ->
  exists d,
    db_findOne db' (inventory_store storeId) (by_barcode (barcode itemData)) = Some d /\
    barcode d = barcode itemData /\
    stock d = default 0 (stock_of db storeId (barcode itemData)) + stock itemData.
Proof.
  intros Hadd. unfold stock_of.
  destruct (db_findOne db (inventory_store storeId)
              (by_barcode (barcode itemData))) as [d0|] eqn:Hfind.
  - destruct (addItem_increment_frame oid _ _ _ _ Hfind)
      as (db1 & d1 & Hadd1 & Hfind1 & Hstock & _ & _ & Hrest).
    rewrite Hadd in Hadd1. injection Hadd1 as <-.
    exists d1. split; [exact Hfind1|]. split; [|exact Hstock].
    injection Hrest as _ -> _ _ _ _ _.
    unfold db_findOne in Hfind. by eapply findOne_by_barcode_Some.
  - assert (Hfresh : id_taken oid itemData (collection db (inventory_store storeId))
                     = false).
    { unfold addItem in Hadd. rewrite Hfind in Hadd.
      unfold db_insertOne, insertOne in Hadd.
      by destruct (id_taken oid itemData (collection db (inventory_store storeId))). }
    assert (Hq : by_barcode (barcode itemData) (with_id oid itemData) = true).
    { unfold by_barcode. rewrite barcode_with_id. by apply bool_decide_eq_true. }
    destruct (addItem_absent oid _ _ _ Hfind Hfresh) as (db1 & Hadd1 & Hc1).
    rewrite Hadd in Hadd1. injection Hadd1 as <-.
    exists (with_id oid itemData). split; [|split].
    + unfold db_findOne in *. rewrite Hc1, findOne_app_miss by done.
      simpl. by rewrite Hq.
    + apply barcode_with_id.
    + simpl. by rewrite stock_with_id.
Qed.

Lemma id_free_findOne oid d c :
  _id d = None -> id_taken oid d c = false -> findOne (by_id oid) c = None.
Proof.
  intros Hd. unfold id_taken, with_id. rewrite Hd. simpl.
  induction c as [|e c IH]; [done|]. simpl.
  intros [He Hc]%orb_false_iff. unfold by_id at 1. rewrite He. auto.
Qed.

(** X5. GetItem, when it returns, either reports "Item not found" without
    an item or returns a record that is in the partition of the store and
    matches the input: by barcode when the input is not identifier-shaped,
    by the identifier the input spells when it is. *)
Theorem getItem_returns_matching_records db storeId s reply :
  getItem db storeId s = Return reply ->
  (product reply = None -> reply = not_found) /\
  (forall p,
     product reply = Some p ->
     reply = retrieved p /\
     In p (collection db (inventory_store storeId)) /\
     if ObjectId_isValid s
     then exists oid, ObjectId_new s = Some oid /\ _id p = Some oid
     else barcode p = s).
Proof.
  unfold getItemByBarcodeOrID, db_findOne, findOne.
  destruct (ObjectId_isValid s); simpl.
  - destruct (ObjectId_new s) as [oid|]; [|discriminate].
    destruct (find (by_id oid) (collection db (inventory_store storeId)))
      as [p|] eqn:Hfind; intros [= <-]; (split; [done|]); [|discriminate].
    intros p' [= <-]. apply find_some in Hfind as [Hin Hq].
    split; [done|]. split; [done|]. exists oid. split; [done|].
    unfold by_id in Hq. by apply bool_decide_eq_true in Hq.
  - destruct (find (by_barcode s) (collection db (inventory_store storeId)))
      as [p|] eqn:Hfind; intros [= <-]; (split; [done|]); [|discriminate].
    intros p' [= <-]. apply find_some in Hfind as [Hin Hq].
    split; [done|]. split; [done|].
    unfold by_barcode in Hq. by apply bool_decide_eq_true in Hq.
Qed.

End LedgerMore.

(** * What no interleaving can do *)

Section Races.

Context {ObjectId : Type} `{EqDecision ObjectId}.

Implicit Types (db : Db ObjectId) (c : Collection ObjectId).
Implicit Types (d itemData : InventoryData ObjectId) (oid : ObjectId).
Implicit Types (t : AddItemTask ObjectId) (ts : list (AddItemTask ObjectId)).
Implicit Types (st : Db ObjectId * list (AddItemTask ObjectId)).
Implicit Types (q : InventoryData ObjectId -> bool).

Lemma updateOne_frozen q delta c :
  map frozen (updateOne q (inc_stock delta) c) = map frozen c.
Proof.
  induction c as [|e c IH]; simpl; [done|].
  destruct (q e); simpl; [done|]. by rewrite IH.
Qed.

Lemma db_insertOne_collection oid db coll d db' other :
  db_insertOne oid db coll d = Return db' ->
  collection db' other
    = if bool_decide (coll = other) then collection db coll ++ [with_id oid d]
      else collection db other.
Proof.
  unfold db_insertOne, insertOne.
  destruct (id_taken oid d (collection db coll)); simpl; [discriminate|].
  intros [= <-]. case_bool_decide as Hother.
  - subst other. apply collection_insert.
  - by apply collection_insert_ne.
Qed.

Lemma db_updateOne_collection db coll q upd other :
  collection (db_updateOne db coll q upd) other
    = if bool_decide (coll = other) then updateOne q upd (collection db coll)
      else collection db other.
Proof.
  case_bool_decide as Hother.
  - subst other. apply collection_db_updateOne.
  - unfold db_updateOne, collection, Db, Collection in *.
    by rewrite lookup_alter_ne.
Qed.

Lemma step_task_frozen db t coll :
  exists extra,
    map frozen (collection (fst (step_task db t)) coll)
      = map frozen (collection db coll) ++ extra.
Proof.
  unfold step_task. destruct (task_pc t) as [|[d|]|r|e]; simpl.
  - exists []. by rewrite app_nil_r.
  - exists []. rewrite db_updateOne_collection, app_nil_r.
    case_bool_decide as Hcoll; [|done]. subst coll. apply updateOne_frozen.
  - destruct (db_insertOne (task_oid t) db (inventory_store (task_store t))
                (task_item t)) as [db'|e] eqn:Hinsert; simpl.
    + rewrite (db_insertOne_collection _ _ _ _ _ coll Hinsert).
      case_bool_decide as Hcoll.
      * subst coll. eexists. by rewrite map_app.
      * exists []. by rewrite app_nil_r.
    + exists []. by rewrite app_nil_r.
  - exists []. by rewrite app_nil_r.
  - exists []. by rewrite app_nil_r.
Qed.

Lemma step_frozen st i coll :
  exists extra,
    map frozen (collection (fst (step st i)) coll)
      = map frozen (collection (fst st) coll) ++ extra.
Proof.
  unfold step. destruct (snd st !! i) as [t|]; simpl.
  - apply step_task_frozen.
  - exists []. by rewrite app_nil_r.
Qed.

Lemma run_frozen schedule st coll :
  exists extra,
    map frozen (collection (fst (run schedule st)) coll)
      = map frozen (collection (fst st) coll) ++ extra.
Proof.
  revert st. induction schedule as [|i schedule IH]; intros st.
  - exists []. by rewrite app_nil_r.
  - change (run (i :: schedule) st) with (run schedule (step st i)).
    destruct (IH (step st i)) as (later & Hlater).
    destruct (step_frozen st i coll) as (now & Hnow).
    exists (now ++ later). by rewrite Hlater, Hnow, app_assoc.
Qed.

Lemma addItem_frozen oid db storeId itemData db' r coll :
  addItem oid db storeId itemData = Return (db', r) ->
  exists extra,
    map frozen (collection db' coll) = map frozen (collection db coll) ++ extra.
Proof.
  intros Hadd. pose proof (task_alone_is_addItem oid db storeId itemData) as Htask.
  rewrite Hadd in Htask. cbv zeta in Htask.
  destruct (step_task_frozen db (spawn oid storeId itemData) coll) as (e1 & H1).
  destruct (step_task_frozen (fst (step_task db (spawn oid storeId itemData)))
              (snd (step_task db (spawn oid storeId itemData))) coll) as (e2 & H2).
  rewrite Htask in H2. cbn [fst] in H2.
  exists (e1 ++ e2). by rewrite H2, H1, app_assoc.
Qed.

(** X6. Nothing is ever deleted or overwritten. Under every schedule of
    every set of AddItem tasks, each collection keeps the records it had, in
    their positions, with every field but the stock as it was: identifier,
    barcode, name, description, price, supplier, both timestamps and
    variants. New records come after them. The same holds for calls made
    one after the other. *)
Theorem records_are_never_removed_or_rewritten db coll :
  (forall schedule ts,
     exists extra,
       map frozen (collection (fst (run schedule (db, ts))) coll)
         = map frozen (collection db coll) ++ extra)
  /\
  (forall storeId (calls : list (ObjectId * InventoryData ObjectId)) db',
     addItems db storeId calls = Return db' ->
     exists extra,
       map frozen (collection db' coll) = map frozen (collection db coll) ++ extra).
Proof.
  split.
  - intros schedule ts. apply (run_frozen schedule (db, ts)).
  - intros storeId calls. revert db.
    induction calls as [|[oid itemData] calls IH]; intros db db'; simpl.
    + intros [= <-]. exists []. by rewrite app_nil_r.
    + destruct (addItem oid db storeId itemData) as [[db1 r]|e] eqn:Hadd;
        simpl; [|discriminate].
      intros Hrest. destruct (IH _ _ Hrest) as (later & Hlater).
      destruct (addItem_frozen _ _ _ _ _ _ coll Hadd) as (now & Hnow).
      exists (now ++ later). by rewrite Hlater, Hnow, app_assoc.
Qed.

End Races.

(** * What the gates accept *)

Lemma reply_of_success error :
  reply_of error = Return (mkReply true None) <-> error = None.
Proof.
  unfold reply_of. destruct error as [[[|d rest]]|]; simpl; split; try done.
Qed.

Lemma Joi_validate_None s v :
  Joi_validate s v = None <-> validate_at s [] (Some v) = [].
Proof.
  unfold Joi_validate. destruct (validate_at s [] (Some v)); split; done.
Qed.

Lemma validate_keys_nil keys p fields :
  validate_keys keys p fields = [] <->
  Forall (fun kc => validate_at (snd kc) (p ++ [Key (fst kc)])
                      (get (fst kc) fields) = []) keys.
Proof.
  induction keys as [|[k child] keys IH]; cbn [validate_keys fst snd].
  - split; [constructor|done].
  - destruct (validate_at child (p ++ [Key k]) (get k fields)) eqn:Hchild.
    + rewrite IH. split; [by constructor|]. by intros [_ ?]%Forall_cons.
    + split; [done|]. intros [Hk _]%Forall_cons. simpl in Hk. congruence.
Qed.

Lemma declared_elem keys k : declared keys k = true <-> k ∈ map fst keys.
Proof.
  unfold declared. induction keys as [|[k' child] keys IH]; simpl.
  - split; [done|]. by intros ?%elem_of_nil.
  - rewrite orb_true_iff, IH, bool_decide_eq_true, elem_of_cons.
    split; (intros [Hk|Hk]; [left; congruence|by right]).
Qed.

Lemma unprocessed_nil keys fields :
  unprocessed keys fields = [] <-> only_keys (map fst keys) fields.
Proof.
  unfold unprocessed, only_keys. induction fields as [|[k v] fields IH]; simpl.
  - split; [constructor|done].
  - destruct (declared keys k) eqn:Hk; simpl.
    + rewrite IH. apply declared_elem in Hk.
      split; [by constructor|]. by intros [_ ?]%Forall_cons.
    + split; [done|]. intros [Hin _]%Forall_cons. simpl in Hin.
      apply declared_elem in Hin. congruence.
Qed.

Lemma object_check_nil keys ms p v :
  object_check keys ms p v = [] <->
  exists fields,
    v = JObj fields /\
    validate_keys keys p fields = [] /\
    only_keys (map fst keys) fields.
Proof.
  unfold object_check. destruct v as [| | | | |fields];
    try (split; [done|by intros (? & ? & _)]).
  destruct (validate_keys keys p fields) eqn:Hkeys.
  - destruct (unprocessed keys fields) eqn:Hrest.
    + apply unprocessed_nil in Hrest. split; [eauto|done].
    + split; [done|]. intros (fields' & [= <-] & _ & Honly).
      apply unprocessed_nil in Honly. congruence.
  - split; [done|]. intros (fields' & [= <-] & Hnil & _). congruence.
Qed.

Lemma Joi_object_nil keys p v :
  validate_at (Joi_object keys) p (Some v) = [] <->
  exists fields,
    v = JObj fields /\
    validate_keys keys p fields = [] /\
    only_keys (map fst keys) fields.
Proof.
  unfold validate_at, Joi_object. simpl. rewrite <- (object_check_nil keys []).
  by destruct (object_check keys [] p v).
Qed.

Lemma digit_text_nil ms p v :
  validate_at (Joi_string .> pattern digits .> with_messages ms .> required) p v = []
  <-> digit_text v.
Proof.
  unfold digit_text, validate_at. simpl.
  destruct v as [[| | |s| |]|]; simpl; try (split; [done|by intros (? & ? & _)]).
  case_bool_decide as Hs; simpl.
  - subst s. split; [done|]. by intros (? & [= <-] & ?).
  - destruct (all_digits s) eqn:Hdigits; simpl.
    + split; [|done]. intros _. exists s. split; [done|].
      by rewrite bool_decide_eq_false_2.
    + split; [done|]. intros (s' & [= <-] & Htest).
      apply andb_true_iff in Htest as [_ Htest]. congruence.
Qed.

Lemma filled_text_nil p v :
  validate_at (Joi_string .> required) p v = [] <-> filled_text v.
Proof.
  unfold filled_text, validate_at. simpl.
  destruct v as [[| | |s| |]|]; simpl; try (split; [done|by intros (? & ? & _)]).
  case_bool_decide as Hs; simpl.
  - subst s. split; [done|]. by intros (? & [= <-] & ?).
  - split; [eauto|done].
Qed.

Lemma product_schema_nil productData :
  validate_at product_schema [] (Some productData) = []
  <-> accepted_product productData.
Proof.
  unfold accepted_product, product_schema. rewrite Joi_object_nil.
  split; intros (fields & -> & Hrest); exists fields; (split; [done|]).
  - destruct Hrest as [Hkeys Honly]. apply validate_keys_nil in Hkeys.
    repeat (apply Forall_cons in Hkeys as [? Hkeys]). simpl in *.
    repeat split; try done.
    + by eapply digit_text_nil.
    + by eapply filled_text_nil.
    + by eapply filled_text_nil.
    + by eapply filled_text_nil.
  - destruct Hrest as (Hb & Hn & Hd & Hc & Honly).
    split; [|done]. apply validate_keys_nil. repeat constructor; simpl.
    + by apply digit_text_nil.
    + by apply filled_text_nil.
    + by apply filled_text_nil.
    + by apply filled_text_nil.
Qed.

(** * The catalog *)

Lemma find_app {A : Type} (f : A -> bool) (l1 l2 : list A) :
  List.find f (l1 ++ l2)
    = match List.find f l1 with
      | Some x => Some x
      | None => List.find f l2
      end.
Proof.
  induction l1 as [|x l1 IH]; simpl; [done|]. by destruct (f x).
Qed.

Lemma Catalog_findOne_None b c :
  Catalog.findOne b c = None <-> b ∉ map Catalog.barcode c.
Proof.
  unfold Catalog.findOne. induction c as [|e c IH]; simpl.
  - split; [intros _; apply not_elem_of_nil|done].
  - case_bool_decide as Hb.
    + split; [discriminate|]. intros Hnot. exfalso. apply Hnot.
      rewrite Hb. apply list_elem_of_here.
    + rewrite IH, not_elem_of_cons. split; [auto|tauto].
Qed.

Lemma addProduct_barcodes c p :
  map Catalog.barcode (fst (Catalog.addProduct c p))
    = note (map Catalog.barcode c) (Catalog.barcode p).
Proof.
  unfold Catalog.addProduct, note.
  destruct (Catalog.findOne (Catalog.barcode p) c) as [e|] eqn:Hfind; simpl.
  - rewrite bool_decide_eq_true_2; [done|].
    destruct (decide (Catalog.barcode p ∈ map Catalog.barcode c)) as [|Hout];
      [done|].
    apply Catalog_findOne_None in Hout. congruence.
  - rewrite bool_decide_eq_false_2 by (by apply Catalog_findOne_None).
    by rewrite map_app.
Qed.

Lemma addProducts_findOne b ps c :
  Catalog.findOne b (addProducts c ps) = Catalog.findOne b (c ++ ps).
Proof.
  revert c. induction ps as [|p ps IH]; intros c; simpl.
  - by rewrite app_nil_r.
  - unfold addProducts in *. simpl. rewrite IH. unfold Catalog.addProduct.
    destruct (Catalog.findOne (Catalog.barcode p) c) as [e|] eqn:Hfind; simpl.
    + unfold Catalog.findOne in *. rewrite !find_app. simpl.
      destruct (find (fun x => bool_decide (Catalog.barcode x = b)) c) eqn:Hb;
        [done|].
      case_bool_decide as Hp; [|done]. rewrite Hp in Hfind. congruence.
    + by rewrite <- app_assoc.
Qed.

(** X11. The catalog keeps, for every barcode, the first product that was
    registered under it: after any run of addProduct calls, looking a
    barcode up in the catalog gives the first product with that barcode
    among those the catalog had and those the calls brought. A barcode that
    is taken is refused with "Product with this barcode already exists" and
    the catalog stays as it was, so barcodes that were unique stay unique. *)
Theorem catalog_keeps_the_first_product c ps :
  (forall b,
     Catalog.findOne b (prod_products (getProdcuts (addProducts c ps)))
       = Catalog.findOne b (c ++ ps)) /\
  (forall p e,
     Catalog.findOne (Catalog.barcode p) c = Some e ->
     Catalog.addProduct c p
       = (c, mkReply false (Some "Product with this barcode already exists"))) /\
  (NoDup (map Catalog.barcode c) ->
   NoDup (map Catalog.barcode (addProducts c ps))).
Proof.
  split; [intros b; apply addProducts_findOne|]. split.
  - intros p e Hfind. unfold Catalog.addProduct. by rewrite Hfind.
  - revert c. induction ps as [|p ps IH]; intros c Hc; [done|].
    unfold addProducts in *. simpl. apply IH.
    rewrite addProduct_barcodes. by apply note_NoDup.
Qed.

Lemma text_filled key fields :
  filled_text (get key fields) -> text key (JObj fields) <> "".
Proof. intros (s & Hs & Hne). unfold text. by rewrite Hs. Qed.

(** * Worked instances of the further properties *)

Lemma addItem_touches_one_store_witness :
  addItem Scenario.oid1 Scenario.untouched Scenario.store (Scenario.cola 1000 10)
    = Return (Scenario.stocked, added) /\
  getInventory Scenario.stocked "8" = getInventory Scenario.untouched "8" /\
  (forall s,
     getItemByBarcodeOrID Bson.ObjectId_new Bson.ObjectId_isValid
       Scenario.stocked "8" s
     = getItemByBarcodeOrID Bson.ObjectId_new Bson.ObjectId_isValid
         Scenario.untouched "8" s).
Proof.
  split; [vm_compute; reflexivity|].
  apply (addItem_touches_one_store Bson.ObjectId_new Bson.ObjectId_isValid
           Scenario.oid1 Scenario.untouched Scenario.store "8"
           (Scenario.cola 1000 10) Scenario.stocked added).
  - discriminate.
  - vm_compute; reflexivity.
Defined.

Lemma addItems_keep_barcodes_unique_witness :
  exists db',
    addItems Scenario.untouched Scenario.store
      [(Scenario.oid1, Scenario.cola 1000 10); (Scenario.oid2, Samples.tea);
       (Scenario.oid2, Scenario.cola 2000 5)]
      = Return db' /\
    forall s,
      NoDup (map barcode (collection db' (inventory_store s))) /\
      (forall b, (records_of db' s b <= 1)%nat).
Proof.
  eexists. split; [vm_compute; reflexivity|].
  eapply (addItems_keep_barcodes_unique Scenario.untouched Scenario.store
            [(Scenario.oid1, Scenario.cola 1000 10); (Scenario.oid2, Samples.tea);
             (Scenario.oid2, Scenario.cola 2000 5)]).
  - intros s. unfold Scenario.untouched. rewrite collection_empty. constructor.
  - vm_compute; reflexivity.
Defined.

Lemma getItem_returns_matching_records_witness :
  In (with_id Scenario.oid1 (Scenario.cola 1000 10))
    (collection Scenario.stocked (inventory_store Scenario.store)) /\
  barcode (with_id Scenario.oid1 (Scenario.cola 1000 10)) = "1001".
Proof.
  destruct (getItem_returns_matching_records Bson.ObjectId_new Bson.ObjectId_isValid
              Scenario.stocked Scenario.store "1001"
              (retrieved (with_id Scenario.oid1 (Scenario.cola 1000 10)))
              ltac:(vm_compute; reflexivity))
    as [_ Hfound].
  destruct (Hfound (with_id Scenario.oid1 (Scenario.cola 1000 10)) eq_refl)
    as (_ & Hin & Hmatch).
  split; [exact Hin|exact Hmatch].
Defined.

Lemma records_are_never_removed_or_rewritten_witness :
  exists db' extra,
    addItems Scenario.stocked Scenario.store
      [(Scenario.oid2, Scenario.cola 2000 5); (Scenario.oid2, Samples.tea)]
      = Return db' /\
    map frozen (collection db' (inventory_store Scenario.store))
      = map frozen (collection Scenario.stocked (inventory_store Scenario.store))
          ++ extra.
Proof.
  pose proof (proj2 (records_are_never_removed_or_rewritten Scenario.stocked
                       (inventory_store Scenario.store))
                Scenario.store
                [(Scenario.oid2, Scenario.cola 2000 5); (Scenario.oid2, Samples.tea)])
    as Hkept.
  eexists. edestruct Hkept as (extra & Hextra); [vm_compute; reflexivity|].
  exists extra. split; [vm_compute; reflexivity|exact Hextra].
Defined.

Lemma catalog_keeps_the_first_product_witness :
  Catalog.addProduct Scenario.catalog
    (Catalog.mkProduct "1001" "Kola" "A copy" "drinks" 900 900 [])
    = (Scenario.catalog,
       mkReply false (Some "Product with this barcode already exists")) /\
  NoDup (map Catalog.barcode
           (addProducts []
              [Catalog.mkProduct "1001" "Cola" "Soda, 33 cl" "drinks" 500 500 [];
               Catalog.mkProduct "1001" "Kola" "A copy" "drinks" 900 900 [];
               Catalog.mkProduct "2002" "Tea" "Green" "drinks" 950 950 []])).
Proof.
  split.
  - eapply (proj1 (proj2 (catalog_keeps_the_first_product Scenario.catalog []))).
    vm_compute; reflexivity.
  - apply (proj2 (proj2 (catalog_keeps_the_first_product [] _))). constructor.
Defined.

(** * The provider on JavaScript's numbers *)

Lemma append_inj_r (p s t : string) : p +:+ s = p +:+ t -> s = t.
Proof.
  induction p as [|c p IH]; simpl; [done|]. intros [= H]. auto.
Qed.

Section PreciseFacts.

Import Precise.

Context {number : Type} (plus : number -> number -> number).
Context {ObjectId : Type} `{EqDecision ObjectId}.

Implicit Types (db : Db number ObjectId) (c : Collection number ObjectId).
Implicit Types (d itemData : InventoryData number ObjectId) (oid : ObjectId).

(** The partition of a store, by the name the provider gives it. *)
Local Abbreviation partition db storeId :=
  (default [] (db !! ("inventory_store_" +:+ storeId))).

Lemma precise_find_none b c :
  findOne (by_barcode b) c = None <-> b ∉ map barcode c.
Proof.
  unfold findOne, by_barcode. induction c as [|e c IH]; simpl.
  - split; [intros _; apply not_elem_of_nil|done].
  - case_bool_decide as Hb.
    + split; [discriminate|]. intros Hnot. exfalso. apply Hnot.
      rewrite Hb. apply list_elem_of_here.
    + rewrite IH, not_elem_of_cons. split; [auto|tauto].
Qed.

Lemma precise_find_first b before d after :
  barcode d = b -> b ∉ map barcode before ->
  findOne (by_barcode b) (before ++ d :: after) = Some d.
Proof.
  intros Hd. unfold findOne, by_barcode.
  induction before as [|e l IH]; simpl; intros Hout.
  - by rewrite bool_decide_eq_true_2.
  - apply not_elem_of_cons in Hout as [Hne Hout].
    rewrite bool_decide_eq_false_2 by congruence. auto.
Qed.

Lemma precise_update_first b upd before d after :
  barcode d = b -> b ∉ map barcode before ->
  updateOne (by_barcode b) upd (before ++ d :: after)
    = before ++ upd d :: after.
Proof.
  intros Hd. unfold by_barcode.
  induction before as [|e l IH]; simpl; intros Hout.
  - by rewrite bool_decide_eq_true_2.
  - apply not_elem_of_cons in Hout as [Hne Hout].
    rewrite bool_decide_eq_false_2 by congruence. by rewrite IH.
Qed.

Lemma precise_id_free oid itemData c :
  id_taken oid itemData c = false
  <-> Forall (fun e => _id e <> _id (with_id oid itemData)) c.
Proof.
  unfold id_taken. induction c as [|e c IH]; simpl.
  - split; [constructor|done].
  - rewrite orb_false_iff, IH, Forall_cons, bool_decide_eq_false. tauto.
Qed.

(** The insert branch. *)
Lemma precise_addItem_absent oid db storeId itemData :
  barcode itemData ∉ map barcode (partition db storeId) ->
  Forall (fun e => _id e <> _id (with_id oid itemData)) (partition db storeId) ->
  exists db',
    addItem plus oid db storeId itemData = Return (db', added) /\
    partition db' storeId = partition db storeId ++ [with_id oid itemData] /\
    forall coll, coll <> "inventory_store_" +:+ storeId -> db' !! coll = db !! coll.
Proof.
  intros Hout Hfree. apply precise_find_none in Hout.
  apply precise_id_free in Hfree.
  unfold addItem, db_findOne, db_insertOne, insertOne, collection,
    inventory_store, Db, Collection in *. cbv zeta.
  rewrite Hout. simpl. rewrite Hfree. simpl. eexists. split; [done|].
  split; [by rewrite lookup_insert_eq|].
  intros coll Hne. by rewrite lookup_insert_ne.
Qed.

(** The increment branch. *)
Lemma precise_addItem_present oid db storeId itemData before d after :
  partition db storeId = before ++ d :: after ->
  barcode d = barcode itemData ->
  barcode itemData ∉ map barcode before ->
  exists db',
    addItem plus oid db storeId itemData = Return (db', added) /\
    partition db' storeId
      = before ++ inc_stock plus (stock itemData) d :: after /\
    forall coll, coll <> "inventory_store_" +:+ storeId -> db' !! coll = db !! coll.
Proof.
  intros Hsplit Hd Hout.
  unfold addItem, db_findOne, db_updateOne, collection, inventory_store,
    Db, Collection in *. cbv zeta.
  rewrite Hsplit, (precise_find_first _ _ _ _ Hd Hout). eexists.
  split; [done|]. split.
  - rewrite lookup_alter_eq.
    destruct (db !! ("inventory_store_" +:+ storeId)) as [c|] eqn:Hc; simpl in *.
    + by rewrite Hsplit, (precise_update_first _ _ _ _ _ Hd Hout).
    + by destruct before.
  - intros coll Hne. by rewrite lookup_alter_ne.
Qed.

End PreciseFacts.

Section PreciseSequences.

Import Precise.

Context {number : Type} (plus : number -> number -> number).
Context {ObjectId : Type} `{EqDecision ObjectId}.

Implicit Types (db : Db number ObjectId).
Implicit Types (d itemData : InventoryData number ObjectId) (oid : ObjectId).
Implicit Types (calls : list (ObjectId * InventoryData number ObjectId)).

Local Abbreviation partition db storeId :=
  (default [] (db !! ("inventory_store_" +:+ storeId))).

(** A record with another stock. *)
Local Abbreviation restocked d s :=
  (mkInventoryData (_id d) (barcode d) (name d) (description d) (price d) s
     (supplier d) (created_at d) (updated_at d) (variants d)).

Lemma precise_addItems_present db storeId before d after calls :
  partition db storeId = before ++ d :: after ->
  barcode d ∉ map barcode before ->
  Forall (fun call => barcode (snd call) = barcode d) calls ->
  exists db',
    addItems plus db storeId calls = Return db' /\
    partition db' storeId
      = before
        ++ restocked d (incremented plus (stock d)
                          (map (fun call => stock (snd call)) calls))
        :: after /\
    forall coll, coll <> "inventory_store_" +:+ storeId -> db' !! coll = db !! coll.
Proof.
  intros Hsplit Hout Hall. revert db d Hsplit Hout Hall.
  induction calls as [|[oid itemData] calls IH]; intros db d Hsplit Hout Hall.
  - exists db. split; [done|]. split; [|done]. rewrite Hsplit. by destruct d.
  - apply Forall_cons in Hall as [Hb Hall]. simpl in Hb.
    assert (Hout' : barcode itemData ∉ map barcode before) by by rewrite Hb.
    destruct (precise_addItem_present plus oid db storeId itemData
                before d after Hsplit (eq_sym Hb) Hout')
      as (db1 & Hrun & Hpart & Hrest).
    destruct (IH db1 (inc_stock plus (stock itemData) d) Hpart Hout Hall)
      as (db2 & Hrun2 & Hpart2 & Hrest2).
    exists db2. simpl. rewrite Hrun. simpl. split; [done|]. split; [done|].
    intros coll Hne. by rewrite Hrest2, Hrest.
Qed.

Lemma incremented_Permutation (s : number) (deltas deltas' : list number) :
  (forall x y z : number, plus (plus x y) z = plus (plus x z) y) ->
  Permutation deltas deltas' ->
  incremented plus s deltas = incremented plus s deltas'.
Proof.
  intros Hswap Hperm. revert s. unfold incremented.
  induction Hperm as [|x l l' _ IH|x y l|l l' l'' _ IH1 _ IH2]; intros s; simpl.
  - done.
  - apply IH.
  - by rewrite Hswap.
  - by rewrite IH1, IH2.
Qed.

Lemma incremented_constant (s delta : number) (deltas : list number) :
  Forall (fun x => x = delta) deltas ->
  incremented plus s deltas
    = Nat.iter (length deltas) (fun x => plus x delta) s.
Proof.
  unfold incremented. revert s.
  induction deltas as [|x l IH]; intros s Hall; [done|].
  apply Forall_cons in Hall as [-> Hall].
  change (length (delta :: l)) with (S (length l)).
  rewrite Nat.iter_succ_r. simpl. by apply IH.
Qed.

End PreciseSequences.

Section PreciseStores.

Import Precise.

Context {number : Type} (plus : number -> number -> number).
Context {ObjectId : Type} `{EqDecision ObjectId}.

Implicit Types (db : Db number ObjectId).
Implicit Types (d itemData : InventoryData number ObjectId) (oid : ObjectId).

Local Abbreviation partition db storeId :=
  (default [] (db !! ("inventory_store_" +:+ storeId))).

Lemma precise_update_barcodes b delta (c : Collection number ObjectId) :
  map barcode (updateOne (by_barcode b) (inc_stock plus delta) c)
    = map barcode c.
Proof.
  induction c as [|e c IH]; simpl; [done|].
  destruct (by_barcode b e); simpl; [done|]. by rewrite IH.
Qed.

(** What one call does to the barcodes of its store, and to the other
    partitions. *)
Lemma precise_addItem_barcodes oid db storeId itemData db' r :
  addItem plus oid db storeId itemData = Return (db', r) ->
  map barcode (partition db' storeId)
    = note (map barcode (partition db storeId)) (barcode itemData) /\
  forall coll, coll <> "inventory_store_" +:+ storeId -> db' !! coll = db !! coll.
Proof.
  unfold addItem, db_findOne, db_insertOne, db_updateOne, insertOne,
    collection, inventory_store, note, Db, Collection in *. cbv zeta.
  destruct (findOne (by_barcode (barcode itemData)) (partition db storeId))
    as [d|] eqn:Hfind.
  - intros [= <- _].
    assert (Hin : barcode itemData ∈ map barcode (partition db storeId)).
    { destruct (decide (barcode itemData ∈ map barcode (partition db storeId)))
        as [|Hout]; [done|].
      apply precise_find_none in Hout. unfold Collection in *. congruence. }
    rewrite bool_decide_eq_true_2 by done. split.
    + rewrite lookup_alter_eq.
      destruct (db !! ("inventory_store_" +:+ storeId)); simpl; [|done].
      apply precise_update_barcodes.
    + intros coll Hne. by rewrite lookup_alter_ne.
  - apply precise_find_none in Hfind.
    rewrite bool_decide_eq_false_2 by done. simpl.
    destruct (id_taken oid itemData (partition db storeId)); simpl; [done|].
    intros [= <- _]. split.
    + rewrite lookup_insert_eq. simpl. rewrite map_app. simpl.
      unfold with_id. by destruct (_id itemData).
    + intros coll Hne. by rewrite lookup_insert_ne.
Qed.

Lemma precise_serve_barcodes (calls : list (Call number ObjectId)) db0 db storeId :
  serve plus db0 calls = Return db ->
  map barcode (partition db storeId)
    = fold_left note (map barcode (sent_to storeId calls))
        (map barcode (partition db0 storeId)).
Proof.
  revert db0. induction calls as [|c calls IH]; intros db0; simpl.
  - by intros [= ->].
  - destruct (addItem plus (call_oid c) db0 (call_store c) (call_item c))
      as [[db1 r]|e] eqn:Hrun; simpl; [|done].
    intros Hrest. rewrite (IH db1 Hrest).
    destruct (precise_addItem_barcodes _ _ _ _ _ _ Hrun) as [Hown Hother].
    unfold sent_to. simpl. case_bool_decide as Hs; simpl.
    + subst storeId. by rewrite Hown.
    + rewrite Hother; [done|]. intros Heq. apply Hs.
      symmetry. by apply append_inj_r in Heq.
Qed.

End PreciseStores.

Section PreciseLookup.

Import Precise.

Context {number : Type} (plus : number -> number -> number).
Context {ObjectId : Type} `{EqDecision ObjectId}.
Context (ObjectId_new : string -> option ObjectId).
Context (ObjectId_isValid : string -> bool).

Implicit Types (db : Db number ObjectId).
Implicit Types (d itemData : InventoryData number ObjectId) (oid : ObjectId).

Local Abbreviation partition db storeId :=
  (default [] (db !! ("inventory_store_" +:+ storeId))).

Local Abbreviation getItem :=
  (getItemByBarcodeOrID ObjectId_new ObjectId_isValid).

Lemma precise_split_first b (c : Collection number ObjectId) :
  b ∈ map barcode c ->
  exists before d after,
    c = before ++ d :: after /\ barcode d = b /\ b ∉ map barcode before.
Proof.
  induction c as [|e c IH]; simpl; intros Hin.
  - by apply elem_of_nil in Hin.
  - destruct (decide (barcode e = b)) as [He|He].
    + exists [], e, c. split; [done|]. split; [done|]. apply not_elem_of_nil.
    + apply elem_of_cons in Hin as [Hin|Hin]; [congruence|].
      destruct (IH Hin) as (before & d & after & -> & Hd & Hout).
      exists (e :: before), d, after. split; [done|]. split; [done|].
      simpl. apply not_elem_of_cons. split; [congruence|done].
Qed.

Lemma precise_getItem_by_barcode db storeId s :
  ObjectId_isValid s = false ->
  getItem db storeId s =
    match findOne (by_barcode s) (partition db storeId) with
    | None => Return (mkItemReply false "Item not found" None)
    | Some p => Return (mkItemReply true "Item retrieved successfully" (Some p))
    end.
Proof. intros Hs. unfold getItemByBarcodeOrID. by rewrite Hs. Qed.

Lemma precise_getItem_by_id db storeId s oid :
  ObjectId_isValid s = true -> ObjectId_new s = Some oid ->
  getItem db storeId s =
    match List.find (fun d => bool_decide (_id d = Some oid))
            (partition db storeId) with
    | None => Return (mkItemReply false "Item not found" None)
    | Some p => Return (mkItemReply true "Item retrieved successfully" (Some p))
    end.
Proof. intros Hs Hoid. unfold getItemByBarcodeOrID. by rewrite Hs, Hoid. Qed.

Lemma find_last {A : Type} (q : A -> bool) (l : list A) (x : A) :
  Forall (fun e => q e = false) l -> q x = true ->
  List.find q (l ++ [x]) = Some x.
Proof.
  intros Hall Hx. induction Hall as [|e l He _ IH]; simpl.
  - by rewrite Hx.
  - by rewrite He.
Qed.

(** What a call that returned has left under the payload's barcode. *)
Lemma precise_addItem_then_find oid db storeId itemData db' r :
  addItem plus oid db storeId itemData = Return (db', r) ->
  (Forall (fun e => _id e <> _id (with_id oid itemData)) (partition db storeId) /\
   (barcode itemData ∉ map barcode (partition db storeId)) /\
   partition db' storeId = partition db storeId ++ [with_id oid itemData])
  \/
  (exists before d after,
     partition db storeId = before ++ d :: after /\
     barcode d = barcode itemData /\
     (barcode itemData ∉ map barcode before) /\
     partition db' storeId
       = before ++ inc_stock plus (stock itemData) d :: after).
Proof.
  intros Hrun.
  destruct (decide (barcode itemData ∈ map barcode (partition db storeId)))
    as [Hin|Hout].
  - right. destruct (precise_split_first _ _ Hin)
      as (before & d & after & Hsplit & Hd & Hout).
    destruct (precise_addItem_present plus oid db storeId itemData
                before d after Hsplit Hd Hout) as (db1 & Hrun1 & Hpart & _).
    rewrite Hrun1 in Hrun. injection Hrun as <- _.
    by exists before, d, after.
  - left. destruct (id_taken oid itemData (partition db storeId)) eqn:Hid.
    + exfalso. apply precise_find_none in Hout.
      unfold addItem, db_findOne, db_insertOne, insertOne, collection,
        inventory_store in Hrun. cbv zeta in Hrun.
      rewrite Hout in Hrun. simpl in Hrun. by rewrite Hid in Hrun.
    + apply precise_id_free in Hid. split; [done|]. split; [done|].
      destruct (precise_addItem_absent plus oid db storeId itemData Hout Hid)
        as (db1 & Hrun1 & Hpart & _).
      rewrite Hrun1 in Hrun. by injection Hrun as <- _.
Qed.

End PreciseLookup.

Section PreciseClaims.

Import Precise.

Context {number : Type} (plus : number -> number -> number).
Context {ObjectId : Type} `{EqDecision ObjectId}.

Implicit Types (db : Db number ObjectId) (c : Collection number ObjectId).
Implicit Types (d itemData : InventoryData number ObjectId) (oid : ObjectId).

Local Abbreviation partition db storeId :=
  (default [] (db !! ("inventory_store_" +:+ storeId))).

(** C1. AddItem on a barcode that no record of the store's partition
    carries appends exactly one record, which holds the payload's fields,
    its stock among them, under the payload's identifier or else the
    generated one. On a barcode that some record of the partition carries
    it inserts nothing: the first record with that barcode keeps every
    field but its stock, which becomes the sum the store computes of the
    old stock and the payload's stock, and the record count stays. Either
    way the reply is [{ success: true, message: "Item added successfully" }]
    and every other record and partition is left as it was. The call
    throws only when the identifier of the record to insert is taken. *)
Theorem addItem_adds_one_record_or_increments_the_first_match
    oid db storeId itemData :
  (barcode itemData ∉ map barcode (partition db storeId) ->
   Forall (fun e => _id e <> Some (default oid (_id itemData)))
     (partition db storeId) ->
   exists db' r,
     addItem plus oid db storeId itemData
       = Return (db', mkReply true (Some "Item added successfully")) /\
     partition db' storeId = partition db storeId ++ [r] /\
     r = mkInventoryData (Some (default oid (_id itemData)))
           (barcode itemData) (name itemData) (description itemData)
           (price itemData) (stock itemData) (supplier itemData)
           (created_at itemData) (updated_at itemData) (variants itemData) /\
     forall coll, coll <> "inventory_store_" +:+ storeId ->
       db' !! coll = db !! coll)
  /\
  (forall before d after,
   partition db storeId = before ++ d :: after ->
   barcode d = barcode itemData ->
   barcode itemData ∉ map barcode before ->
   exists db',
     addItem plus oid db storeId itemData
       = Return (db', mkReply true (Some "Item added successfully")) /\
     partition db' storeId
       = before
         ++ mkInventoryData (_id d) (barcode itemData) (name d) (description d)
              (price d) (plus (stock d) (stock itemData)) (supplier d)
              (created_at d) (updated_at d) (variants d)
         :: after /\
     length (partition db' storeId) = length (partition db storeId) /\
     forall coll, coll <> "inventory_store_" +:+ storeId ->
       db' !! coll = db !! coll)
  /\
  (barcode itemData ∉ map barcode (partition db storeId) ->
   Exists (fun e => _id e = Some (default oid (_id itemData)))
     (partition db storeId) ->
   addItem plus oid db storeId itemData = Throw DuplicateKey).
Proof.
  assert (Hwith : with_id oid itemData
            = mkInventoryData (Some (default oid (_id itemData)))
                (barcode itemData) (name itemData) (description itemData)
                (price itemData) (stock itemData) (supplier itemData)
                (created_at itemData) (updated_at itemData) (variants itemData)).
  { unfold with_id. by destruct itemData as [[i|] ? ? ? ? ? ? ? ? ?]. }
  assert (Hid : _id (with_id oid itemData) = Some (default oid (_id itemData))).
  { by rewrite Hwith. }
  split; [|split].
  - intros Hout Hfree. rewrite <- Hid in Hfree.
    destruct (precise_addItem_absent plus oid db storeId itemData Hout Hfree)
      as (db' & Hrun & Hpart & Hrest).
    exists db', (with_id oid itemData). by rewrite <- Hwith.
  - intros before d after Hsplit Hd Hout.
    destruct (precise_addItem_present plus oid db storeId itemData
                before d after Hsplit Hd Hout) as (db' & Hrun & Hpart & Hrest).
    exists db'. split; [done|]. split; [by rewrite Hpart, <- Hd|].
    split; [|done]. rewrite Hpart, Hsplit. by rewrite !length_app.
  - intros Hout Htaken. apply precise_find_none in Hout.
    unfold addItem, db_findOne, db_insertOne, insertOne, collection,
      inventory_store in *. cbv zeta. rewrite Hout. simpl.
    replace (id_taken oid itemData
               (default [] (db !! ("inventory_store_" +:+ storeId))))
      with true; [done|].
    symmetry. unfold id_taken. apply existsb_exists.
    apply Exists_exists in Htaken as (e & Hin & He). exists e.
    split; [by apply list_elem_of_In|]. apply bool_decide_eq_true. congruence.
Qed.

End PreciseClaims.

Section Increments.

Import Precise.

Context {number : Type} (plus : number -> number -> number).
Context {ObjectId : Type} `{EqDecision ObjectId}.

Implicit Types (db : Db number ObjectId) (d : InventoryData number ObjectId).
Implicit Types (calls : list (ObjectId * InventoryData number ObjectId)).

Local Abbreviation partition db storeId :=
  (default [] (db !! ("inventory_store_" +:+ storeId))).


End Increments.

Section DoublesAtWork.

Import PrimFloat Precise Shelf.

Local Open Scope float_scope.


End DoublesAtWork.

Section Listing.

Import Precise.

Context {number : Type} (plus : number -> number -> number).
Context {ObjectId : Type} `{EqDecision ObjectId}.

Implicit Types (db : Db number ObjectId) (oid : ObjectId).
Implicit Types (itemData : InventoryData number ObjectId).

Local Abbreviation partition db storeId :=
  (default [] (db !! ("inventory_store_" +:+ storeId))).

(** C9. GetInventory always succeeds with the message "Items retrieved
    successfully" and returns every record of the collection named
    [inventory_store_] followed by the store's identifier, and no other
    record; for a store whose collection is empty or was never written it
    returns the empty list. After any calls of AddItem to any stores, starting from an
    empty database, the list for a store holds one record for each barcode
    that was sent to that store, in the order in which the store first
    received them; what was sent to another store does not show, and a
    store that received nothing lists nothing. A call of AddItem to one
    store does not change what GetInventory returns for another. *)
Theorem getInventory_lists_the_partition_of_its_store :
  (forall db storeId,
     getInventory db storeId
       = Return (mkInventoryReply true "Items retrieved successfully"
                   (partition db storeId)))
  /\
  (forall db storeId,
     db !! ("inventory_store_" +:+ storeId) = None \/
     db !! ("inventory_store_" +:+ storeId) = Some [] ->
     getInventory db storeId
       = Return (mkInventoryReply true "Items retrieved successfully" []))
  /\
  (forall calls db storeId,
     serve plus ∅ calls = Return db ->
     exists listed,
       getInventory db storeId
         = Return (mkInventoryReply true "Items retrieved successfully" listed) /\
       map barcode listed = first_seen (map barcode (sent_to storeId calls)) /\
       (Forall (fun c => call_store c <> storeId) calls -> listed = []))
  /\
  (forall oid db storeId itemData db' r other,
     addItem plus oid db storeId itemData = Return (db', r) ->
     other <> storeId ->
     getInventory db' other = getInventory db other).
Proof.
  split; [done|]. split; [|split].
  - intros db storeId Hempty.
    unfold getInventory, collection, inventory_store, Db, Collection in *.
    cbv zeta. by destruct Hempty as [-> | ->].
  - intros calls db storeId Hrun. exists (partition db storeId).
    split; [done|].
    pose proof (precise_serve_barcodes plus calls ∅ db storeId Hrun) as Hbar.
    unfold Db, Collection in *. rewrite lookup_empty in Hbar. simpl in Hbar. split; [done|].
    intros Hnone. apply (f_equal length) in Hbar.
    replace (sent_to storeId calls) with (@nil (InventoryData number ObjectId))
      in Hbar.
    + rewrite length_map in Hbar. simpl in Hbar.
      by destruct (partition db storeId).
    + unfold sent_to. clear Hbar Hrun.
      induction calls as [|c calls IH]; simpl; [done|].
      apply Forall_cons in Hnone as [Hc Hnone].
      rewrite bool_decide_eq_false_2 by done. auto.
  - intros oid db storeId itemData db' r other Hrun Hne.
    destruct (precise_addItem_barcodes plus _ _ _ _ _ _ Hrun) as [_ Hother].
    unfold getInventory, collection, inventory_store. cbv zeta.
    rewrite Hother; [done|]. intros Heq. by apply append_inj_r in Heq.
Qed.

End Listing.

Section RoundTrips.

Import Precise.

Context {number : Type} (plus : number -> number -> number).
Context {ObjectId : Type} `{EqDecision ObjectId}.
Context (ObjectId_new : string -> option ObjectId).
Context (ObjectId_isValid : string -> bool).

Implicit Types (db : Db number ObjectId).
Implicit Types (d itemData data : InventoryData number ObjectId) (oid : ObjectId).

Local Abbreviation partition db storeId :=
  (default [] (db !! ("inventory_store_" +:+ storeId))).

Local Abbreviation getItem :=
  (getItemByBarcodeOrID ObjectId_new ObjectId_isValid).

(** X3. What AddItem stores, GetItem finds: after a call that returned, a
    lookup of the payload's barcode, when the driver does not take it for
    an identifier, succeeds with the message "Item retrieved successfully"
    and an item that carries the barcode. When the store did not hold the
    barcode, the item is the payload under its identifier; when it did,
    the item is the first record that held it, every field as it was but
    the stock, which is the sum the store computes of the old stock and the
    payload's. *)
Theorem added_item_is_retrieved_by_barcode oid db storeId itemData db' r :
  addItem plus oid db storeId itemData = Return (db', r) ->
  ObjectId_isValid (barcode itemData) = false ->
  exists d,
    getItem db' storeId (barcode itemData)
      = Return (mkItemReply true "Item retrieved successfully" (Some d)) /\
    barcode d = barcode itemData /\
    (barcode itemData ∉ map barcode (partition db storeId) ->
     d = mkInventoryData (Some (default oid (_id itemData)))
           (barcode itemData) (name itemData) (description itemData)
           (price itemData) (stock itemData) (supplier itemData)
           (created_at itemData) (updated_at itemData) (variants itemData)) /\
    (forall before d0 after,
     partition db storeId = before ++ d0 :: after ->
     barcode d0 = barcode itemData ->
     barcode itemData ∉ map barcode before ->
     d = mkInventoryData (_id d0) (barcode d0) (name d0) (description d0)
           (price d0) (plus (stock d0) (stock itemData)) (supplier d0)
           (created_at d0) (updated_at d0) (variants d0)).
Proof.
  intros Hrun Hshape.
  rewrite (precise_getItem_by_barcode _ _ _ _ _ Hshape).
  destruct (precise_addItem_then_find plus _ _ _ _ _ _ Hrun)
    as [(Hfree & Hout & Hpart)|(before & d & after & Hsplit & Hd & Hout & Hpart)].
  - exists (with_id oid itemData). rewrite Hpart.
    assert (Hb : barcode (with_id oid itemData) = barcode itemData).
    { unfold with_id. by destruct (_id itemData). }
    replace (partition db storeId ++ [with_id oid itemData])
      with (partition db storeId ++ with_id oid itemData :: []) by done.
    rewrite (precise_find_first _ _ _ _ Hb Hout).
    split; [done|]. split; [done|]. split.
    + intros _. unfold with_id. by destruct itemData as [[i|] ? ? ? ? ? ? ? ? ?].
    + intros before d0 after Hsplit Hd0 _. exfalso. apply Hout.
      rewrite Hsplit, map_app. simpl. rewrite Hd0.
      apply elem_of_app. right. apply list_elem_of_here.
  - exists (inc_stock plus (stock itemData) d). rewrite Hpart.
    rewrite (precise_find_first (barcode itemData) before
               (inc_stock plus (stock itemData) d) after Hd Hout).
    split; [done|]. split; [done|]. split.
    + intros Habsent. exfalso. apply Habsent.
      rewrite Hsplit, map_app. simpl. rewrite Hd.
      apply elem_of_app. right. apply list_elem_of_here.
    + intros before0 d0 after0 Hsplit0 Hd0 Hout0.
      pose proof (precise_find_first _ _ _ after Hd Hout) as Hone.
      pose proof (precise_find_first _ _ _ after0 Hd0 Hout0) as Htwo.
      rewrite <- Hsplit in Hone. rewrite <- Hsplit0 in Htwo.
      rewrite Hone in Htwo. by injection Htwo as <-.
Qed.

(** X4. An item built by instantiateItem and added under a barcode new to
    the store is found again by the identifier the driver gave it: the
    lookup succeeds with an item that carries that identifier, the fields
    of the data as they came, the first reading of the clock as
    [created_at] and the second as [updated_at]. *)
Theorem instantiated_item_is_retrieved_by_identifier
    created updated oid db storeId data s db' r :
  addItem plus oid db storeId (instantiateItem created updated data)
    = Return (db', r) ->
  barcode data ∉ map barcode (partition db storeId) ->
  ObjectId_isValid s = true ->
  ObjectId_new s = Some oid ->
  getItem db' storeId s
    = Return (mkItemReply true "Item retrieved successfully"
                (Some (mkInventoryData (Some oid) (barcode data) (name data)
                         (description data) (price data) (stock data)
                         (supplier data) created updated (variants data)))).
Proof.
  intros Hrun Hnew Hshape Hoid.
  rewrite (precise_getItem_by_id _ _ _ _ _ _ Hshape Hoid).
  destruct (precise_addItem_then_find plus _ _ _ _ _ _ Hrun)
    as [(Hfree & Hout & Hpart)|(before & d & after & Hsplit & Hd & Hout & Hpart)].
  - rewrite Hpart. simpl in *.
    rewrite find_last; [done| |by apply bool_decide_eq_true].
    eapply Forall_impl; [exact Hfree|]. intros e He.
    by apply bool_decide_eq_false.
  - exfalso. apply Hnew. rewrite Hsplit, map_app. simpl. rewrite Hd.
    apply elem_of_app. right. apply list_elem_of_here.
Qed.

End RoundTrips.

Section HexLookup.

Import Precise.

Context {number : Type}.

Implicit Types (db : Db number Bson.ObjectId).

Local Abbreviation partition db storeId :=
  (default [] (db !! ("inventory_store_" +:+ storeId))).

Local Abbreviation getItem :=
  (getItemByBarcodeOrID Bson.ObjectId_new Bson.ObjectId_isValid).


End HexLookup.

(** * The gates and the controller on whatever they receive *)

Lemma received_validate_None s value :
  Received.Joi_validate s value = None <-> validate_at s [] value = [].
Proof.
  unfold Received.Joi_validate. destruct (validate_at s [] value); split; done.
Qed.

Lemma store_schema_nil storeInfo :
  validate_at store_schema [] (Some storeInfo) = [] <-> accepted_store storeInfo.
Proof.
  unfold accepted_store, store_schema. rewrite Joi_object_nil.
  split; intros (fields & -> & Hkeys & Honly); exists fields; (split; [done|]).
  - split; [|done]. apply validate_keys_nil in Hkeys.
    apply Forall_cons in Hkeys as [Hid _]. by apply digit_text_nil in Hid.
  - split; [|done]. apply validate_keys_nil. repeat constructor.
    by apply digit_text_nil.
Qed.

(** X8. The store gate accepts [undefined], and otherwise a payload exactly
    when it is an object whose [store_id] is a non-empty string of digits
    and that has no other key; on whatever it receives it returns a reply,
    never throws. *)
Theorem validateStore_accepts_undefined_and_store_objects storeInfo :
  (Received.validateStore storeInfo = Return (mkReply true None)
   <-> storeInfo = None \/
       exists v, storeInfo = Some v /\ accepted_store v)
  /\
  exists reply, Received.validateStore storeInfo = Return reply.
Proof.
  split.
  - unfold Received.validateStore. cbv zeta.
    rewrite reply_of_success, received_validate_None.
    destruct storeInfo as [v|].
    + rewrite store_schema_nil. split; [eauto|].
      by intros [?|(? & [= <-] & ?)].
    + split; [auto|done].
  - unfold Received.validateStore, reply_of, Received.Joi_validate. cbv zeta.
    destruct (validate_at store_schema [] storeInfo); simpl; eauto.
Qed.

(** X10. The product gate accepts [undefined], and otherwise a payload
    exactly when it is an object with a barcode of digits and a non-empty
    name, description and category, and no other key. It never throws. *)
Theorem validateProductData_accepts_undefined_and_product_objects productData :
  (Received.validateProductData productData = Return (mkReply true None)
   <-> productData = None \/
       exists v, productData = Some v /\ accepted_product v)
  /\
  exists reply, Received.validateProductData productData = Return reply.
Proof.
  split.
  - unfold Received.validateProductData. cbv zeta.
    rewrite reply_of_success, received_validate_None.
    destruct productData as [v|].
    + rewrite product_schema_nil. split; [eauto|].
      by intros [?|(? & [= <-] & ?)].
    + split; [auto|done].
  - unfold Received.validateProductData, reply_of, Received.Joi_validate.
    cbv zeta. destruct (validate_at product_schema [] productData); simpl; eauto.
Qed.

(** The product the controller builds from an accepted payload. *)
Local Abbreviation built created updated v :=
  (Catalog.mkProduct (text "barcode" v) (text "name" v) (text "description" v)
     (text "category_id" v) created updated []).

Lemma received_createProduct_cases created updated c productData :
  (productData = None /\
   Received.createProduct created updated c productData = Throw TypeError)
  \/
  (exists v reply,
     productData = Some v /\ ~ accepted_product v /\
     success reply = false /\
     Received.createProduct created updated c productData = Return (c, reply))
  \/
  (exists v,
     productData = Some v /\ accepted_product v /\
     Received.stored (built created updated v) /\
     Received.createProduct created updated c productData
       = Return (Catalog.addProduct c (built created updated v))).
Proof.
  unfold Received.createProduct, Received.validateProductData, reply_of,
    Received.Joi_validate. cbv zeta.
  destruct productData as [v|]; [|by left]. right.
  destruct (validate_at product_schema [] (Some v)) as [|d rest] eqn:Hv.
  - right. exists v. apply product_schema_nil in Hv.
    destruct Hv as (fields & -> & (b & Hb & Hdigits) & Hn & Hd & Hc & Honly).
    split; [done|]. split.
    { exists fields. repeat split; try done. by exists b. }
    split; [|done].
    repeat split; simpl; try by apply text_filled.
    by rewrite Hb.
  - left. exists v. eexists. split; [done|]. split.
    + intros Hacc. apply product_schema_nil in Hacc. congruence.
    + split; [|reflexivity]. reflexivity.
Qed.


(** X13. A catalog filled through createProduct stays well-formed. From a
    catalog whose products have a barcode of digits, a non-empty name,
    description and category and no variants, and whose barcodes are
    unique, a run of createProduct requests none of which is [undefined]
    returns, keeps the products it had in place, and ends in a catalog
    with the same properties; a run with an [undefined] payload throws a
    TypeError. *)
Theorem createProducts_keep_the_catalog_well_formed c requests :
  Forall Received.stored c ->
  NoDup (map Catalog.barcode c) ->
  (Forall (fun r => Received.payload r <> None) requests ->
   exists c' extra,
     Received.createProducts c requests = Return c' /\
     c' = c ++ extra /\
     Forall Received.stored c' /\
     NoDup (map Catalog.barcode c'))
  /\
  (Exists (fun r => Received.payload r = None) requests ->
   Received.createProducts c requests = Throw TypeError).
Proof.
  intros Hall Hunique. split.
  - revert c Hall Hunique.
    induction requests as [|[created updated productData] requests IH];
      intros c Hall Hunique Hdefined; simpl.
    + exists c, []. by rewrite app_nil_r.
    + apply Forall_cons in Hdefined as [Hsome Hdefined]. simpl in Hsome.
      destruct (received_createProduct_cases created updated c productData)
        as [[-> _]|[(v & reply & _ & _ & _ & ->)|(v & _ & _ & Hp & ->)]];
        simpl; [done|by apply IH|].
      set (p := Catalog.mkProduct _ _ _ _ _ _ _) in *.
      destruct (IH (fst (Catalog.addProduct c p)))
        as (c' & later & Hrun & Hc' & Hctl & Hnd); [| |done|].
      * unfold Catalog.addProduct.
        destruct (Catalog.findOne (Catalog.barcode p) c); simpl; [done|].
        apply Forall_app. split; [done|]. by constructor.
      * rewrite addProduct_barcodes. by apply note_NoDup.
      * exists c'. unfold Catalog.addProduct in Hc'.
        destruct (Catalog.findOne (Catalog.barcode p) c) eqn:Hfind;
          simpl in Hc'.
        -- exists later. by rewrite Hrun.
        -- exists ([p] ++ later). rewrite Hrun, app_assoc. by rewrite <- Hc'.
  - clear Hall Hunique. revert c.
    induction requests as [|[created updated productData] requests IH];
      intros c Hsome; simpl.
    + by apply Exists_nil in Hsome.
    + destruct (received_createProduct_cases created updated c productData)
        as [[-> ->]|[(v & reply & -> & _ & _ & ->)|(v & -> & _ & _ & ->)]];
        simpl; [done| |].
      * apply IH. by apply Exists_cons in Hsome as [[=]|].
      * apply IH. by apply Exists_cons in Hsome as [[=]|].
Qed.

(** * Worked instances in stores 7 and 8 *)

Section ShelfInstances.

Import PrimFloat Precise Shelf.

Local Abbreviation partition db storeId :=
  (default [] (db !! ("inventory_store_" +:+ storeId))).

Lemma addItem_adds_one_record_or_increments_the_first_match_witness :
  (exists db',
     addItem Doubles.plus oid1 empty "7" (cola 10%float)
       = Return (db', mkReply true (Some "Item added successfully")) /\
     partition db' "7" = [with_id oid1 (cola 10%float)])
  /\
  (exists db',
     addItem Doubles.plus oid2 brimful "7" (cola 1%float)
       = Return (db', mkReply true (Some "Item added successfully")) /\
     partition db' "7" = [with_id oid1 (cola 9007199254740992%float)]).
Proof.
  split.
  - pose proof (addItem_adds_one_record_or_increments_the_first_match
                  Doubles.plus oid1 empty "7" (cola 10%float)) as (Hins & _).
    destruct Hins as (db' & r & Hrun & Hpart & Hr & _).
    + apply not_elem_of_nil.
    + constructor.
    + exists db'. split; [exact Hrun|]. rewrite Hpart, Hr. reflexivity.
  - pose proof (addItem_adds_one_record_or_increments_the_first_match
                  Doubles.plus oid2 brimful "7" (cola 1%float))
      as (_ & Hinc & _).
    destruct (Hinc [] (with_id oid1 (cola Doubles.max_safe)) [])
      as (db' & Hrun & Hpart & _).
    + reflexivity.
    + reflexivity.
    + apply not_elem_of_nil.
    + exists db'. split; [exact Hrun|]. rewrite Hpart. vm_compute. reflexivity.
Defined.


Lemma getInventory_lists_the_partition_of_its_store_witness :
  exists db,
    serve Doubles.plus empty morning = Return db /\
    (exists listed,
       getInventory db "7"
         = Return (mkInventoryReply true "Items retrieved successfully" listed) /\
       map barcode listed = ["1001"]) /\
    (exists listed,
       getInventory db "8"
         = Return (mkInventoryReply true "Items retrieved successfully" listed) /\
       map barcode listed = [ean]) /\
    getInventory db "9"
      = Return (mkInventoryReply true "Items retrieved successfully" []).
Proof.
  pose proof (getInventory_lists_the_partition_of_its_store Doubles.plus
                (ObjectId := Bson.ObjectId)) as (_ & _ & Hlist & _).
  destruct (serve Doubles.plus empty morning) as [db|e] eqn:Hrun;
    [|vm_compute in Hrun; discriminate].
  exists db. split; [reflexivity|].
  split; [|split].
  - destruct (Hlist morning db "7" Hrun) as (listed & Hget & Hbar & _).
    exists listed. split; [exact Hget|]. rewrite Hbar. reflexivity.
  - destruct (Hlist morning db "8" Hrun) as (listed & Hget & Hbar & _).
    exists listed. split; [exact Hget|]. rewrite Hbar. reflexivity.
  - destruct (Hlist morning db "9" Hrun) as (listed & Hget & _ & Hnone).
    rewrite Hget, Hnone; [reflexivity|]. repeat constructor; discriminate.
Defined.

End ShelfInstances.

Section HexInstances.

Import PrimFloat Precise Shelf.

Local Abbreviation getItem :=
  (getItemByBarcodeOrID Bson.ObjectId_new Bson.ObjectId_isValid).



Lemma added_item_is_retrieved_by_barcode_witness :
  exists db' d,
    addItem Doubles.plus oid2 brimful "7" (cola 1%float)
      = Return (db', mkReply true (Some "Item added successfully")) /\
    getItem db' "7" "1001"
      = Return (mkItemReply true "Item retrieved successfully" (Some d)) /\
    d = with_id oid1 (cola 9007199254740992%float).
Proof.
  destruct (addItem Doubles.plus oid2 brimful "7" (cola 1%float))
    as [[db' r]|e] eqn:Hrun; [|vm_compute in Hrun; discriminate].
  destruct (added_item_is_retrieved_by_barcode Doubles.plus
              Bson.ObjectId_new Bson.ObjectId_isValid
              oid2 brimful "7" (cola 1%float) db' r Hrun eq_refl)
    as (d & Hget & _ & _ & Hinc).
  exists db', d. split.
  - f_equal. f_equal. vm_compute in Hrun. by injection Hrun as _ <-.
  - split; [exact Hget|].
    rewrite (Hinc [] (with_id oid1 (cola Doubles.max_safe)) []).
    + vm_compute. reflexivity.
    + reflexivity.
    + reflexivity.
    + apply not_elem_of_nil.
Defined.

Lemma instantiated_item_is_retrieved_by_identifier_witness :
  exists db',
    addItem Doubles.plus oid2 empty "7" (instantiateItem 1000 1001 (tea ean))
      = Return (db', mkReply true (Some "Item added successfully")) /\
    getItem db' "7" id2
      = Return (mkItemReply true "Item retrieved successfully"
                  (Some (mkInventoryData (Some oid2) ean "Tea" "" 2.5%float
                           4%float "" 1000 1001
                           [mkVariant "Green" 2.5%float 4%float]))).
Proof.
  destruct (addItem Doubles.plus oid2 empty "7"
              (instantiateItem 1000 1001 (tea ean)))
    as [[db' r]|e] eqn:Hrun; [|vm_compute in Hrun; discriminate].
  exists db'. split.
  - f_equal. f_equal. vm_compute in Hrun. by injection Hrun as _ <-.
  - apply (instantiated_item_is_retrieved_by_identifier Doubles.plus
             Bson.ObjectId_new Bson.ObjectId_isValid
             1000 1001 oid2 empty "7" (tea ean) id2 db' r Hrun).
    + apply not_elem_of_nil.
    + reflexivity.
    + reflexivity.
Defined.

End HexInstances.


Lemma createProducts_keep_the_catalog_well_formed_witness :
  (exists c' extra,
     Received.createProducts [] Received.desk = Return c' /\
     c' = [] ++ extra /\
     Forall Received.stored c' /\
     NoDup (map Catalog.barcode c'))
  /\
  Received.createProducts []
    (Received.desk ++ [Received.mkRequest 900 900 None]) = Throw TypeError.
Proof.
  split.
  - apply (createProducts_keep_the_catalog_well_formed [] Received.desk);
      repeat constructor; discriminate.
  - apply (createProducts_keep_the_catalog_well_formed []
             (Received.desk ++ [Received.mkRequest 900 900 None]));
      [constructor|constructor|].
    apply Exists_app. right. by constructor.
Defined.
